(** * virtugood: scatter generator and player movement / collision engine

    Shallow embedding of [scatterData.ts] and [Player.tsx], with the
    rendering of the scattered objects from [Room.tsx] and the Enter key of
    [Overlay.tsx].

    Number model.  JavaScript numbers are IEEE doubles.  The generator's
    stream state is an integer below 2^32 and is modelled in [Z]; lemma
    [rngStep_fits_double] shows that the product formed by one update stays
    below 2^53, so the double computation of the source is exact there.
    Every other number (positions, heights, velocities, angles, sizes) is
    modelled as a real number: [+ - * /], [Math.sqrt], [Math.cos],
    [Math.sin], [Math.max], [Math.min] are the operations of [R], without
    rounding, NaN or infinities. *)

From Stdlib Require Import Reals ZArith List String Bool Lia Lra Psatz.
From Stdlib Require Import DecimalString DecimalZ DecimalPos Permutation.
Import ListNotations.

Open Scope R_scope.

(* ================================================================== *)
(** * Comparisons of numbers as booleans *)

Definition Rltb (a b : R) : bool := if Rlt_dec a b then true else false.
Definition Rleb (a b : R) : bool := if Rle_dec a b then true else false.
Definition Rgtb (a b : R) : bool := Rltb b a.
Definition Rgeb (a b : R) : bool := Rleb b a.
Definition Reqb (a b : R) : bool := if Req_dec_T a b then true else false.

(* ================================================================== *)
(** * scatterData.ts *)

Module ScatterData.

Record ScatteredObject : Type := mkScatteredObject {
  position : R * R * R;
  type : Z;
  size : R;
  rotation : R;
  colorIndex : Z;
  key : string
}.

(** [seed >>> 0] on an integer seed. *)
Definition toUint32 (seed : Z) : Z := seed mod 4294967296.

(** [createRng(seed)]: the closure's captured variable [state]. *)
Definition createRng (seed : Z) : Z := toUint32 seed.

(** The body of the closure: the state update. *)
Definition rngStep (state : Z) : Z :=
  (1664525 * state + 1013904223) mod 4294967296.

(** One call [rand()]: the returned number and the updated state. *)
Definition rand (state : Z) : R * Z :=
  let state' := rngStep state in
  (IZR state' / 4294967296, state').

(** The template literal [`obj-${i}`]. *)
Definition objKey (i : Z) : string :=
  ("obj-" ++ NilZero.string_of_int (Z.to_int i))%string.

(** One iteration of the [for] loop: draws seven numbers in program order
    and pushes one object. *)
Definition scatterBody (i count : Z) (startRadius wallRadius : R)
    (state : Z) (objects : list ScatteredObject)
  : Z * list ScatteredObject :=
  let '(r1, state) := rand state in
  let angle := IZR i / IZR count * PI * 2 + r1 * 0.5 in
  let '(r2, state) := rand state in
  let distance := startRadius + r2 * (wallRadius - startRadius - 5) in
  let x := cos angle * distance in
  let z := sin angle * distance in
  let '(r3, state) := rand state in
  let y := r3 * 5 in
  let '(r4, state) := rand state in
  let type := Zfloor (r4 * 4) in
  let '(r5, state) := rand state in
  let size := 1 + r5 * 3 in
  let '(r6, state) := rand state in
  let rotation := r6 * PI * 2 in
  let '(r7, state) := rand state in
  let colorIndex := Zfloor (r7 * 6) in
  (state,
   objects ++ [mkScatteredObject (x, y, z) type size rotation colorIndex
                                 (objKey i)]).

(** [for (let i = 0; i < count; i++)]: [n] is the number of iterations
    still to run. *)
Fixpoint scatterLoop (n : nat) (i count : Z) (startRadius wallRadius : R)
    (state : Z) (objects : list ScatteredObject) : list ScatteredObject :=
  match n with
  | O => objects
  | S n' =>
      let '(state', objects') :=
        scatterBody i count startRadius wallRadius state objects in
      scatterLoop n' (i + 1) count startRadius wallRadius state' objects'
  end.

Definition generateScatteredObjects (count : Z) (startRadius wallRadius : R)
  : list ScatteredObject :=
  scatterLoop (Z.to_nat count) 0 count startRadius wallRadius
              (createRng 12345) [].

(** The call sites pass no argument: count 60, startRadius 5, wallRadius 75. *)
Definition defaultScatteredObjects : list ScatteredObject :=
  generateScatteredObjects 60 5 75.

(** ** The algorithm as the specification words it

    A single stream: draw number [k] (from 1) is the [k]-th state of the
    generator divided by 2^32; object [i] consumes draws [7i+1 .. 7i+7] in
    the order jitter, distance, Y, type, size, rotation, colour. *)

Definition specSeed : Z := 12345.

Definition specState (k : nat) : Z := Nat.iter k rngStep specSeed.

Definition specDraw (k : nat) : R := IZR (specState k) / 4294967296.

Definition specJitter (i : nat) : R := specDraw (7 * i + 1) * 0.5.

Definition specAngle (count : Z) (i : nat) : R :=
  IZR (Z.of_nat i) / IZR count * (2 * PI) + specJitter i.

Definition specDistance (startRadius wallRadius : R) (i : nat) : R :=
  startRadius + specDraw (7 * i + 2) * (wallRadius - startRadius - 5).

Definition specY (i : nat) : R := specDraw (7 * i + 3) * 5.
Definition specType (i : nat) : Z := Zfloor (specDraw (7 * i + 4) * 4).
Definition specSize (i : nat) : R := 1 + specDraw (7 * i + 5) * 3.
Definition specRotation (i : nat) : R := specDraw (7 * i + 6) * (2 * PI).
Definition specColorIndex (i : nat) : Z := Zfloor (specDraw (7 * i + 7) * 6).

Definition specObject (count : Z) (startRadius wallRadius : R) (i : nat)
  : ScatteredObject :=
  let angle := specAngle count i in
  let distance := specDistance startRadius wallRadius i in
  mkScatteredObject (cos angle * distance, specY i, sin angle * distance)
                    (specType i) (specSize i) (specRotation i)
                    (specColorIndex i) (objKey (Z.of_nat i)).

Definition specGenerate (count : Z) (startRadius wallRadius : R)
  : list ScatteredObject :=
  map (specObject count startRadius wallRadius) (seq 0 (Z.to_nat count)).

End ScatterData.

(* ================================================================== *)
(** * The parts of three.js and of the JavaScript runtime that Player.tsx
      calls *)

Module Three.

Record Vector3 : Type := vec3 { x : R; y : R; z : R }.

(** [a.subVectors(b, c)]: component-wise difference. *)
Definition subVectors (a b : Vector3) : Vector3 :=
  vec3 (x a - x b) (y a - y b) (z a - z b).

Definition length (v : Vector3) : R :=
  sqrt (x v * x v + y v * y v + z v * z v).

Definition multiplyScalar (v : Vector3) (s : R) : Vector3 :=
  vec3 (x v * s) (y v * s) (z v * s).

(** [divideScalar(s)] is [multiplyScalar(1 / s)]. *)
Definition divideScalar (v : Vector3) (s : R) : Vector3 :=
  multiplyScalar v (1 / s).

(** [normalize()] is [divideScalar(length() || 1)]. *)
Definition normalize (v : Vector3) : Vector3 :=
  divideScalar v (if Reqb (length v) 0 then 1 else length v).

Definition distanceTo (a b : Vector3) : R :=
  let dx := x a - x b in
  let dy := y a - y b in
  let dz := z a - z b in
  sqrt (dx * dx + dy * dy + dz * dz).

End Three.

(** [Math.atan2(y, x)] on real arguments. *)
Definition atan2 (y x : R) : R :=
  if Rltb 0 x then atan (y / x)
  else if Rltb x 0 then
    (if Rleb 0 y then atan (y / x) + PI else atan (y / x) - PI)
  else if Rltb 0 y then PI / 2
  else if Rltb y 0 then - PI / 2
  else 0.

(** [Number(b)] on a boolean. *)
Definition Number (b : bool) : R := if b then 1 else 0.

(** [arr.push(a)] and [arr.forEach(f)] with the array threaded through. *)
Definition push {A : Type} (arr : list A) (a : A) : list A := arr ++ [a].

Definition forEach {A S : Type} (arr : list A) (f : A -> S -> S) (s : S) : S :=
  fold_left (fun acc a => f a acc) arr s.

(* ================================================================== *)
(** * Player.tsx *)

Module Player.

Import Three.

Definition SPEED : R := 10.
Definition SLOW_WALK_SPEED : R := 3.
Definition JUMP_FORCE : R := 8.
Definition GRAVITY : R := -20.
Definition GROUND_HEIGHT : R := 2.
Definition DUCK_HEIGHT : R := 1.
Definition PLAYER_RADIUS : R := 0.5.

Definition FOG_START_DISTANCE : R := 25.
Definition FOG_MAX_DISTANCE : R := 100.
Definition WALL_RADIUS : R := 75.
Definition CENTER : Vector3 := vec3 0 0 0.

(** The [KEYS] table: key code to the name of a [MoveState] field. *)
Definition KEYS (code : string) : option string :=
  if (code =? "KeyW")%string then Some "forward"%string
  else if (code =? "KeyS")%string then Some "backward"%string
  else if (code =? "KeyA")%string then Some "left"%string
  else if (code =? "KeyD")%string then Some "right"%string
  else if (code =? "Space")%string then Some "jump"%string
  else if (code =? "ArrowUp")%string then Some "forward"%string
  else if (code =? "ArrowDown")%string then Some "backward"%string
  else if (code =? "ArrowLeft")%string then Some "left"%string
  else if (code =? "ArrowRight")%string then Some "right"%string
  else None.

Record MoveState : Type := mkMoveState {
  forward : bool;
  backward : bool;
  left : bool;
  right : bool;
  jump : bool;
  duck : bool;
  slowWalk : bool
}.

(** [moveState.current[name] = v] for a field name taken from [KEYS]. *)
Definition setFlag (name : string) (v : bool) (m : MoveState) : MoveState :=
  if (name =? "forward")%string then
    mkMoveState v (backward m) (left m) (right m) (jump m) (duck m) (slowWalk m)
  else if (name =? "backward")%string then
    mkMoveState (forward m) v (left m) (right m) (jump m) (duck m) (slowWalk m)
  else if (name =? "left")%string then
    mkMoveState (forward m) (backward m) v (right m) (jump m) (duck m) (slowWalk m)
  else if (name =? "right")%string then
    mkMoveState (forward m) (backward m) (left m) v (jump m) (duck m) (slowWalk m)
  else if (name =? "jump")%string then
    mkMoveState (forward m) (backward m) (left m) (right m) v (duck m) (slowWalk m)
  else m.

Definition setDuck (v : bool) (m : MoveState) : MoveState :=
  mkMoveState (forward m) (backward m) (left m) (right m) (jump m) v (slowWalk m).

Definition setSlowWalk (v : bool) (m : MoveState) : MoveState :=
  mkMoveState (forward m) (backward m) (left m) (right m) (jump m) (duck m) v.

Inductive BoundType : Type := box | sphere | cylinder.

Record CollisionBounds : Type := mkBounds {
  type : BoundType;
  position : Vector3;
  size : Vector3
}.

(** ** generateCollisionBounds *)

Definition columnPositions : list (R * R * R) :=
  [ (-8, 0, -5); (-8, 0, 5); (-8, 0, 15); (8, 0, -5); (8, 0, 5); (8, 0, 15) ].

(** The callback of [columnPositions.forEach]. *)
Definition pushColumn (p : R * R * R) (bounds : list CollisionBounds)
  : list CollisionBounds :=
  let '(x, y, z) := p in
  let bounds := push bounds (mkBounds box (vec3 x (y + 0.5) z) (vec3 2 1 2)) in
  let bounds :=
    push bounds (mkBounds cylinder (vec3 x (y + 6) z) (vec3 0.8 10 0)) in
  let bounds :=
    push bounds (mkBounds box (vec3 x (y + 11.5) z) (vec3 1.8 1 1.8)) in
  bounds.

(** The callback of [scatteredObjects.forEach]. *)
Definition pushScattered (o : ScatterData.ScatteredObject)
    (bounds : list CollisionBounds) : list CollisionBounds :=
  let '(x, y, z) := ScatterData.position o in
  let type := ScatterData.type o in
  let size := ScatterData.size o in
  if (type =? 0)%Z then
    push bounds (mkBounds box (vec3 x (y + size * 1.5 / 2) z)
                          (vec3 size (size * 1.5) size))
  else if (type =? 1)%Z then
    push bounds (mkBounds cylinder (vec3 x (y + size) z)
                          (vec3 (size * 0.5) (size * 2) 0))
  else if (type =? 2)%Z then
    push bounds (mkBounds sphere (vec3 x y z) (vec3 (size * 0.7) 0 0))
  else if (type =? 3)%Z then
    push bounds (mkBounds cylinder (vec3 x (y + size) z)
                          (vec3 (size * 0.7) (size * 2) 0))
  else bounds.

Definition generateCollisionBounds
    (scatteredObjects : list ScatterData.ScatteredObject)
  : list CollisionBounds :=
  let bounds := [] in
  let bounds := forEach columnPositions pushColumn bounds in
  let giantPos := vec3 30 0 (-30) in
  let bounds :=
    push bounds (mkBounds cylinder
                   (vec3 (x giantPos) (y giantPos + 12) (z giantPos))
                   (vec3 4 12 0)) in
  let bounds :=
    push bounds (mkBounds sphere
                   (vec3 (x giantPos) (y giantPos + 20) (z giantPos))
                   (vec3 3 0 0)) in
  let bounds :=
    push bounds (mkBounds cylinder
                   (vec3 (x giantPos - 5) (y giantPos + 12) (z giantPos + 2))
                   (vec3 1 10 0)) in
  let bounds :=
    push bounds (mkBounds cylinder
                   (vec3 (x giantPos + 5) (y giantPos + 12) (z giantPos + 2))
                   (vec3 1 10 0)) in
  let bounds := forEach scatteredObjects pushScattered bounds in
  bounds.

(** The two [useMemo] values of the component. *)
Definition scatteredObjects : list ScatterData.ScatteredObject :=
  ScatterData.defaultScatteredObjects.

Definition staticCollisionBounds : list CollisionBounds :=
  generateCollisionBounds scatteredObjects.

(** ** checkCollision *)

(** The body of the [for] loop for one bound: [true] when it returns. *)
Definition boundHit (pos : Vector3) (playerBottom playerTop : R)
    (bound : CollisionBounds) : bool :=
  match type bound with
  | box =>
      let minX := x (position bound) - x (size bound) / 2 in
      let maxX := x (position bound) + x (size bound) / 2 in
      let minY := y (position bound) - y (size bound) / 2 in
      let maxY := y (position bound) + y (size bound) / 2 in
      let minZ := z (position bound) - z (size bound) / 2 in
      let maxZ := z (position bound) + z (size bound) / 2 in
      let closestX := Rmax minX (Rmin (x pos) maxX) in
      let closestY := Rmax minY (Rmin (y pos) maxY) in
      let closestZ := Rmax minZ (Rmin (z pos) maxZ) in
      let distX := x pos - closestX in
      let distY := y pos - closestY in
      let distZ := z pos - closestZ in
      let distSq := distX * distX + distY * distY + distZ * distZ in
      Rltb distSq (PLAYER_RADIUS * PLAYER_RADIUS)
  | sphere =>
      let dist := distanceTo pos (position bound) in
      if Rltb dist (PLAYER_RADIUS + x (size bound)) then
        Rltb playerBottom (y (position bound) + x (size bound))
        && Rgtb playerTop (y (position bound) - x (size bound))
      else false
  | cylinder =>
      let dx := x pos - x (position bound) in
      let dz := z pos - z (position bound) in
      let horizontalDist := sqrt (dx * dx + dz * dz) in
      if Rltb horizontalDist (PLAYER_RADIUS + x (size bound)) then
        let cylBottom := y (position bound) - y (size bound) / 2 in
        let cylTop := y (position bound) + y (size bound) / 2 in
        Rltb playerBottom cylTop && Rgtb playerTop cylBottom
      else false
  end.

Fixpoint checkLoop (pos : Vector3) (playerBottom playerTop : R)
    (bounds : list CollisionBounds) : bool :=
  match bounds with
  | [] => false
  | bound :: rest =>
      if boundHit pos playerBottom playerTop bound then true
      else checkLoop pos playerBottom playerTop rest
  end.

Definition checkCollision (staticCollisionBounds : list CollisionBounds)
    (pos : Vector3) (playerHeight : R) : bool :=
  let playerBottom := y pos - playerHeight / 2 in
  let playerTop := y pos + playerHeight / 2 in
  checkLoop pos playerBottom playerTop staticCollisionBounds.

(** ** Component state *)

Record Fog : Type := mkFog { near : R; far : R }.

Record KeyboardEvent : Type := mkKeyboardEvent {
  code : string;
  ctrlKey : bool;
  shiftKey : bool
}.

(** The [isLocked] prop, the three refs' targets ([moveState.current],
    [velocityY.current], [isGrounded.current]), the camera position and
    [scene.fog] ([None] for [null]). *)
Record State : Type := mkState {
  isLocked : bool;
  moveState : MoveState;
  velocityY : R;
  isGrounded : bool;
  camera_position : Vector3;
  scene_fog : option Fog
}.

(** The refs' initial values, the camera of [Scene] at [0, 2, 10] and its
    fog element with near 5 and far 30; the pointer starts unlocked. *)
Definition initialState : State :=
  mkState false
          (mkMoveState false false false false false false false)
          0 true (vec3 0 2 10) (Some (mkFog 5 30)).

Definition withMoveState (m : MoveState) (s : State) : State :=
  mkState (isLocked s) m (velocityY s) (isGrounded s) (camera_position s)
          (scene_fog s).

(** ** handleKeyDown, handleKeyUp *)

Definition isControl (c : string) : bool :=
  ((c =? "ControlLeft") || (c =? "ControlRight"))%string.

Definition isShift (c : string) : bool :=
  ((c =? "ShiftLeft") || (c =? "ShiftRight"))%string.

Definition handleKeyDown (e : KeyboardEvent) (s : State) : State :=
  if negb (isLocked s) then s
  else
    let key := code e in
    let s :=
      if ctrlKey e || isControl (code e)
      then withMoveState (setDuck true (moveState s)) s else s in
    let s :=
      if shiftKey e || isShift (code e)
      then withMoveState (setSlowWalk true (moveState s)) s else s in
    match KEYS key with
    | Some name =>
        if (key =? "Space")%string then
          if isGrounded s && Reqb (velocityY s) 0 then
            mkState (isLocked s) (moveState s) JUMP_FORCE false
                    (camera_position s) (scene_fog s)
          else s
        else withMoveState (setFlag name true (moveState s)) s
    | None => s
    end.

Definition handleKeyUp (e : KeyboardEvent) (s : State) : State :=
  let key := code e in
  let s :=
    if isControl (code e)
    then withMoveState (setDuck false (moveState s)) s else s in
  let s :=
    if isShift (code e)
    then withMoveState (setSlowWalk false (moveState s)) s else s in
  let s :=
    if negb (ctrlKey e)
    then withMoveState (setDuck false (moveState s)) s else s in
  let s :=
    if negb (shiftKey e)
    then withMoveState (setSlowWalk false (moveState s)) s else s in
  match KEYS key with
  | Some name =>
      if negb (key =? "Space")%string
      then withMoveState (setFlag name false (moveState s)) s
      else s
  | None => s
  end.

(** ** The useFrame callback

    [delta] is the elapsed time of the frame; [applyEuler v] stands for
    [v.applyEuler(camera.rotation)], the rotation of [v] by the view
    orientation of this frame (three.js code, set by the pointer-lock
    controls).  The callback is split into its consecutive blocks. *)

(** [velocityY.current += GRAVITY * delta]. *)
Definition integratedVelocity (delta : R) (s : State) : R :=
  velocityY s + GRAVITY * delta.

(** [camera.position.y += velocityY.current * delta]. *)
Definition integratedY (delta : R) (s : State) : R :=
  y (camera_position s) + integratedVelocity delta s * delta.

(** [isOnGround]. *)
Definition isOnGround (delta : R) (s : State) : bool :=
  Rleb (integratedY delta s) GROUND_HEIGHT.

(** The duck / stand blending of the grounded branch, on the height [cy]
    the camera has after integration. *)
Definition blendHeight (duck : bool) (delta cy : R) : R :=
  if duck then
    let targetY := DUCK_HEIGHT in
    if Rgtb cy targetY then Rmax targetY (cy - 15 * delta) else targetY
  else
    let targetY := GROUND_HEIGHT in
    if Rltb cy targetY then Rmin targetY (cy + 15 * delta) else targetY.

(** Velocity, grounded flag and camera height after the ground block. *)
Definition groundVelocity (delta : R) (s : State) : R :=
  if isOnGround delta s then
    if Rltb (integratedVelocity delta s) 0 then 0
    else integratedVelocity delta s
  else integratedVelocity delta s.

Definition groundHeight (delta : R) (s : State) : R :=
  if isOnGround delta s
  then blendHeight (duck (moveState s)) delta (integratedY delta s)
  else integratedY delta s.

(** The movement vector [direction]. *)
Definition direction (delta : R) (applyEuler : Vector3 -> Vector3)
    (s : State) : Vector3 :=
  let m := moveState s in
  let currentSpeed := if slowWalk m then SLOW_WALK_SPEED else SPEED in
  let frontVector := vec3 0 0 (Number (backward m) - Number (forward m)) in
  let sideVector := vec3 (Number (left m) - Number (right m)) 0 0 in
  applyEuler
    (multiplyScalar (normalize (subVectors frontVector sideVector))
                    (currentSpeed * delta)).

Definition newX (delta : R) (applyEuler : Vector3 -> Vector3) (s : State) : R :=
  x (camera_position s) + x (direction delta applyEuler s).

Definition newZ (delta : R) (applyEuler : Vector3 -> Vector3) (s : State) : R :=
  z (camera_position s) + z (direction delta applyEuler s).

Definition distanceFromCenter (nx nz : R) : R := sqrt (nx * nx + nz * nz).

(** [currentHeight] of the collision branch. *)
Definition currentHeight (s : State) : R :=
  if duck (moveState s) then DUCK_HEIGHT else GROUND_HEIGHT.

(** The wall / collision block: the camera's x and z after it. *)
Definition horizontalMove (bounds : list CollisionBounds) (nx nz : R)
    (s : State) : R * R :=
  if Rgeb (distanceFromCenter nx nz) WALL_RADIUS then
    let angle := atan2 nz nx in
    (cos angle * WALL_RADIUS, sin angle * WALL_RADIUS)
  else
    let currentHeight := currentHeight s in
    let testPos := vec3 nx currentHeight nz in
    if negb (checkCollision bounds testPos currentHeight)
    then (nx, nz)
    else (x (camera_position s), z (camera_position s)).

(** The condition under which the assignments [camera.position.x = newX] and
    [camera.position.z = newZ] run: the wall branch is not taken and
    [checkCollision] returns false. *)
Definition moveAccepted (bounds : list CollisionBounds) (nx nz : R)
    (s : State) : bool :=
  negb (Rgeb (distanceFromCenter nx nz) WALL_RADIUS)
  && negb (checkCollision bounds (vec3 nx (currentHeight s) nz)
                          (currentHeight s)).

(** The fog block. *)
Definition fogIntensity (newDistance : R) : R :=
  Rmax 0 (Rmin 1 ((newDistance - FOG_START_DISTANCE)
                  / (FOG_MAX_DISTANCE - FOG_START_DISTANCE))).

Definition updateFog (cx cz : R) (fog : option Fog) : option Fog :=
  let finalPos := vec3 cx 0 cz in
  let newDistance := distanceTo finalPos CENTER in
  match fog with
  | Some _ =>
      let fogIntensity := fogIntensity newDistance in
      Some (mkFog (5 + fogIntensity * 15) (30 + fogIntensity * 40))
  | None => None
  end.

Definition useFrame (bounds : list CollisionBounds) (delta : R)
    (applyEuler : Vector3 -> Vector3) (s : State) : State :=
  if negb (isLocked s) then s
  else
    let xz := horizontalMove bounds (newX delta applyEuler s)
                             (newZ delta applyEuler s) s in
    mkState (isLocked s) (moveState s)
            (groundVelocity delta s)
            (isOnGround delta s)
            (vec3 (fst xz) (groundHeight delta s) (snd xz))
            (updateFog (fst xz) (snd xz) (scene_fog s)).

(** ** The component driven by its environment *)

Inductive Event : Type :=
| SetLocked (locked : bool)
| KeyDown (e : KeyboardEvent)
| KeyUp (e : KeyboardEvent)
| Frame (delta : R) (applyEuler : Vector3 -> Vector3).

Definition step (bounds : list CollisionBounds) (s : State) (ev : Event)
  : State :=
  match ev with
  | SetLocked locked =>
      mkState locked (moveState s) (velocityY s) (isGrounded s)
              (camera_position s) (scene_fog s)
  | KeyDown e => handleKeyDown e s
  | KeyUp e => handleKeyUp e s
  | Frame delta applyEuler => useFrame bounds delta applyEuler s
  end.

Definition run (bounds : list CollisionBounds) (evs : list Event) : State :=
  fold_left (step bounds) evs initialState.

End Player.

(* ================================================================== *)
(** * Definitions that follow the specification's words, and the
      predicates the theorems are stated with *)

Module PlayerSpec.

Import Three Player.

(** The three shapes of one column: base box 2 x 1 x 2 centred at y + 0.5,
    shaft cylinder of radius 0.8 and height 10 centred at y + 6, capital
    box 1.8 x 1 x 1.8 centred at y + 11.5. *)
Definition columnShapes (p : R * R * R) : list CollisionBounds :=
  let '(x, y, z) := p in
  [ mkBounds box (vec3 x (y + 0.5) z) (vec3 2 1 2);
    mkBounds cylinder (vec3 x (y + 6) z) (vec3 0.8 10 0);
    mkBounds box (vec3 x (y + 11.5) z) (vec3 1.8 1 1.8) ].

(** The four shapes of the statue at offset (30, 0, -30): torso cylinder of
    radius 4 and height 12, head sphere of radius 3, two arm cylinders of
    radius 1 and height 10. *)
Definition statueShapes : list CollisionBounds :=
  [ mkBounds cylinder (vec3 30 (0 + 12) (-30)) (vec3 4 12 0);
    mkBounds sphere (vec3 30 (0 + 20) (-30)) (vec3 3 0 0);
    mkBounds cylinder (vec3 (30 - 5) (0 + 12) (-30 + 2)) (vec3 1 10 0);
    mkBounds cylinder (vec3 (30 + 5) (0 + 12) (-30 + 2)) (vec3 1 10 0) ].

(** The one shape of a scattered object of type 0, 1, 2 or 3 (cone). *)
Definition scatterShape (o : ScatterData.ScatteredObject) : CollisionBounds :=
  let '(x, y, z) := ScatterData.position o in
  let size := ScatterData.size o in
  match ScatterData.type o with
  | 0%Z => mkBounds box (vec3 x (y + size * 1.5 / 2) z)
                    (vec3 size (size * 1.5) size)
  | 1%Z => mkBounds cylinder (vec3 x (y + size) z)
                    (vec3 (size * 0.5) (size * 2) 0)
  | 2%Z => mkBounds sphere (vec3 x y z) (vec3 (size * 0.7) 0 0)
  | _ => mkBounds cylinder (vec3 x (y + size) z)
                  (vec3 (size * 0.7) (size * 2) 0)
  end.

Definition validType (o : ScatterData.ScatteredObject) : Prop :=
  (0 <= ScatterData.type o <= 3)%Z.

(** [clamp(v, lo, hi)]. *)
Definition clamp (v lo hi : R) : R :=
  if Rltb v lo then lo else if Rgtb v hi then hi else v.

(** Fog intensity, near and far as functions of the distance from the
    centre. *)
Definition intensity (d : R) : R :=
  clamp ((d - FOG_START_DISTANCE) / (FOG_MAX_DISTANCE - FOG_START_DISTANCE))
        0 1.

Definition fogNear (d : R) : R := 5 + intensity d * 15.
Definition fogFar (d : R) : R := 30 + intensity d * 40.

(** Planar distance of the camera from the origin. *)
Definition planarDistance (s : State) : R :=
  sqrt (x (camera_position s) * x (camera_position s)
        + z (camera_position s) * z (camera_position s)).

(** Every flag set in [m'] is set in [m]. *)
Definition flagsLe (m' m : MoveState) : Prop :=
  (forward m' = true -> forward m = true)
  /\ (backward m' = true -> backward m = true)
  /\ (left m' = true -> left m = true)
  /\ (right m' = true -> right m = true)
  /\ (jump m' = true -> jump m = true)
  /\ (duck m' = true -> duck m = true)
  /\ (slowWalk m' = true -> slowWalk m = true).

Definition allFalse (m : MoveState) : Prop :=
  m = mkMoveState false false false false false false false.

(** Velocity, grounded flag and camera position: the player kinematics. *)
Definition sameKinematics (s' s : State) : Prop :=
  velocityY s' = velocityY s
  /\ isGrounded s' = isGrounded s
  /\ camera_position s' = camera_position s.

(** The state with other vertical data: camera height, vertical velocity
    and grounded flag. *)
Definition withVertical (cy v : R) (g : bool) (s : State) : State :=
  mkState (isLocked s) (moveState s) v g
          (vec3 (x (camera_position s)) cy (z (camera_position s)))
          (scene_fog s).

(** Frames whose elapsed time is between 0 and 0.45 seconds. *)
Definition frameBounded (ev : Event) : Prop :=
  match ev with
  | Frame delta _ => 0 <= delta <= 0.45
  | _ => True
  end.

(** The invariant of the vertical motion under bounded frames: the camera
    is never below [DUCK_HEIGHT], the energy [v^2 + 40 y] never exceeds that
    of a jump from standing height, the velocity is not downward at or
    below [GROUND_HEIGHT], and a grounded player is at or below
    [GROUND_HEIGHT]. *)
Definition verticalInv (s : State) : Prop :=
  DUCK_HEIGHT <= y (camera_position s)
  /\ velocityY s <= JUMP_FORCE
  /\ velocityY s * velocityY s + 40 * y (camera_position s) <= 144
  /\ (y (camera_position s) <= GROUND_HEIGHT -> 0 <= velocityY s)
  /\ (isGrounded s = true -> y (camera_position s) <= GROUND_HEIGHT).

(** The flags after the modifier blocks of a Space key-down. *)
Definition spaceFlags (e : KeyboardEvent) (m : MoveState) : MoveState :=
  let m1 := if ctrlKey e then setDuck true m else m in
  if shiftKey e then setSlowWalk true m1 else m1.

(** Events other than a lock. *)
Definition notLock (ev : Event) : Prop :=
  match ev with
  | SetLocked true => False
  | _ => True
  end.

(** Sample inputs: the initial state once the pointer is locked, the same
    with the duck flag set, a view orientation without rotation, and two
    keyboard events without modifiers. *)
Definition standing : State :=
  mkState true (mkMoveState false false false false false false false)
          0 true (vec3 0 2 10) (Some (mkFog 5 30)).

Definition ducking : State :=
  mkState true (mkMoveState false false false false false true false)
          0 true (vec3 0 2 10) (Some (mkFog 5 30)).

(** The locked initial state with the forward flag set. *)
Definition walking : State :=
  mkState true (mkMoveState true false false false false false false)
          0 true (vec3 0 2 10) (Some (mkFog 5 30)).

Definition noRotation (v : Vector3) : Vector3 := v.

Definition spaceKey : KeyboardEvent := mkKeyboardEvent "Space" false false.
Definition keyW : KeyboardEvent := mkKeyboardEvent "KeyW" false false.

End PlayerSpec.

(* ================================================================== *)
(** * Room.tsx: the rendering of the scattered objects *)

Module Room.

(** The geometry elements the component uses, with their [args]. *)
Inductive Geometry : Type :=
| boxGeometry (width height depth : R)
| cylinderGeometry (radiusTop radiusBottom height : R) (radialSegments : Z)
| sphereGeometry (radius : R) (widthSegments heightSegments : Z)
| coneGeometry (radius height : R) (radialSegments : Z).

(** A [mesh] element with its [meshStandardMaterial]; [color] is [None]
    when the looked-up colour is [undefined]. *)
Record Mesh : Type := mkMesh {
  castShadow : bool;
  geometry : Geometry;
  color : option string;
  metalness : R;
  roughness : R
}.

(** A [group] element: position, rotation and the meshes it renders. *)
Record Group : Type := mkGroup {
  position : R * R * R;
  rotation : R * R * R;
  children : list Mesh
}.

Definition colors : list string :=
  [ "#8b5cf6"; "#ec4899"; "#06b6d4"; "#f59e0b"; "#10b981"; "#ef4444" ]%string.

(** [colors[colorIndex % colors.length]]: the remainder keeps the sign of
    [colorIndex], and a negative index reads [undefined]. *)
Definition colorAt (colorIndex : Z) : option string :=
  let i := Z.rem colorIndex (Z.of_nat (List.length colors)) in
  if (i <? 0)%Z then None else nth_error colors (Z.to_nat i).

(** [{cond && <mesh/>}]: the mesh when [cond] holds, nothing otherwise. *)
Definition renderIf (cond : bool) (m : Mesh) : list Mesh :=
  if cond then [m] else [].

Definition RandomObject (position : R * R * R) (type : Z) (size rotation : R)
    (colorIndex : Z) : Group :=
  let color := colorAt colorIndex in
  mkGroup position (0, rotation, 0)
    (renderIf (type =? 0)%Z
       (mkMesh true (boxGeometry size (size * 1.5) size) color 0.5 0.5)
     ++ renderIf (type =? 1)%Z
          (mkMesh true (cylinderGeometry (size * 0.5) (size * 0.5) (size * 2) 8)
                  color 0.5 0.5)
     ++ renderIf (type =? 2)%Z
          (mkMesh true (sphereGeometry (size * 0.7) 16 16) color 0.5 0.5)
     ++ renderIf (type =? 3)%Z
          (mkMesh true (coneGeometry (size * 0.7) (size * 2) 8) color 0.5 0.5)).

(** [objects.map(...)]: one keyed [RandomObject] per object. *)
Definition ScatteredObjects (objects : list ScatterData.ScatteredObject)
  : list (string * Group) :=
  map (fun obj =>
         (ScatterData.key obj,
          RandomObject (ScatterData.position obj) (ScatterData.type obj)
                       (ScatterData.size obj) (ScatterData.rotation obj)
                       (ScatterData.colorIndex obj)))
      objects.

(** The [useMemo] value of [Room]. *)
Definition scatteredObjects : list ScatterData.ScatteredObject :=
  ScatterData.defaultScatteredObjects.

End Room.

(* ================================================================== *)
(** * Overlay.tsx: the Enter key of the start overlay *)

Module Overlay.

(** The [isLocked] prop, [hasStartedRef.current] and the number of calls
    made to [onStartRef.current]. *)
Record State : Type := mkState {
  isLocked : bool;
  hasStarted : bool;
  onStartCalls : nat
}.

(** After the first render with [isLocked = false] and its effects. *)
Definition mounted : State := mkState false false 0.

(** The listener of the third effect. *)
Definition handleKeyDown (key : string) (s : State) : State :=
  if (key =? "Enter")%string && negb (hasStarted s)
  then mkState (isLocked s) true (S (onStartCalls s))
  else s.

(** The test [e.key === "Enter"]. *)
Definition isEnter (key : string) : bool := (key =? "Enter")%string.

(** A key-down on [window]: the listener is attached only while
    [isLocked] is false. *)
Definition windowKeyDown (s : State) (key : string) : State :=
  if isLocked s then s else handleKeyDown key s.

(** A render with a new value of [isLocked]: the effects that depend on it
    run when it changed, and the second one clears [hasStartedRef] when the
    overlay is shown again. *)
Definition setLocked (locked : bool) (s : State) : State :=
  if Bool.eqb locked (isLocked s) then s
  else mkState locked (if negb locked then false else hasStarted s)
               (onStartCalls s).

End Overlay.

(* ================================================================== *)
(** * Predicates and helper functions of the further properties *)

Module Props.

Import Three Player PlayerSpec.

(** [moveState.current[name]] for a field name. *)
Definition getFlag (name : string) (m : MoveState) : bool :=
  if (name =? "forward")%string then forward m
  else if (name =? "backward")%string then backward m
  else if (name =? "left")%string then left m
  else if (name =? "right")%string then right m
  else if (name =? "jump")%string then jump m
  else false.

(** The flags after the two modifier blocks of a key-down. *)
Definition downFlags (e : KeyboardEvent) (m : MoveState) : MoveState :=
  let m1 := if ctrlKey e || isControl (code e) then setDuck true m else m in
  if shiftKey e || isShift (code e) then setSlowWalk true m1 else m1.

(** The flags after a key-up. *)
Definition upFlags (e : KeyboardEvent) (m : MoveState) : MoveState :=
  let m := if isControl (code e) then setDuck false m else m in
  let m := if isShift (code e) then setSlowWalk false m else m in
  let m := if negb (ctrlKey e) then setDuck false m else m in
  let m := if negb (shiftKey e) then setSlowWalk false m else m in
  match KEYS (code e) with
  | Some name =>
      if negb (code e =? "Space")%string then setFlag name false m else m
  | None => m
  end.

(** Frames with a non-negative elapsed time. *)
Definition frameNonneg (ev : Event) : Prop :=
  match ev with
  | Frame delta _ => 0 <= delta
  | _ => True
  end.

(** What a jump can reach: velocity at most JUMP_FORCE, energy
    [v^2 + 40 y] at most that of a jump from GROUND_HEIGHT, and a grounded
    player at or below GROUND_HEIGHT. *)
Definition apexInv (s : State) : Prop :=
  velocityY s <= JUMP_FORCE
  /\ velocityY s * velocityY s + 40 * y (camera_position s) <= 144
  /\ (isGrounded s = true -> y (camera_position s) <= GROUND_HEIGHT).

(** The camera within the wall and the fog within the range the wall
    allows. *)
Definition fogInv (s : State) : Prop :=
  planarDistance s <= WALL_RADIUS
  /\ exists fog : Fog,
       scene_fog s = Some fog
       /\ 5 <= near fog <= 15 /\ 30 <= far fog <= 170 / 3.

(** A run of frames: elapsed time and view rotation of each. *)
Definition frames (bounds : list CollisionBounds)
    (fs : list (R * (Vector3 -> Vector3))) (s : State) : State :=
  fold_left (fun acc f => useFrame bounds (fst f) (snd f) acc) fs s.

Definition speedOf (s : State) : R :=
  if slowWalk (moveState s) then SLOW_WALK_SPEED else SPEED.

(** The pressed direction keys cancel. *)
Definition noNetInput (m : MoveState) : Prop :=
  forward m = backward m /\ left m = right m.

Definition validTypeb (o : ScatterData.ScatteredObject) : bool :=
  ((0 <=? ScatterData.type o) && (ScatterData.type o <=? 3))%Z.

(** The inverse of the generator's state update:
    4276115653 * 1664525 = 1 (mod 2^32). *)
Definition rngUnstep (state : Z) : Z :=
  (4276115653 * (state - 1013904223)) mod 4294967296.


(** Planar distance from the origin and height of a scattered object. *)
Definition objectDistance (o : ScatterData.ScatteredObject) : R :=
  let '(ox, _, oz) := ScatterData.position o in sqrt (ox * ox + oz * oz).

Definition objectY (o : ScatterData.ScatteredObject) : R :=
  let '(_, oy, _) := ScatterData.position o in oy.

End Props.

(* ================================================================== *)
(** * Reflection of the boolean comparisons *)

Lemma Rltb_true (a b : R) : Rltb a b = true <-> a < b.
Proof. unfold Rltb. destruct (Rlt_dec a b); split; intros; try easy. Qed.

Lemma Rltb_false (a b : R) : Rltb a b = false <-> b <= a.
Proof.
  unfold Rltb. destruct (Rlt_dec a b); split; intros; try easy; lra.
Qed.

Lemma Rleb_true (a b : R) : Rleb a b = true <-> a <= b.
Proof. unfold Rleb. destruct (Rle_dec a b); split; intros; try easy. Qed.

Lemma Rleb_false (a b : R) : Rleb a b = false <-> b < a.
Proof.
  unfold Rleb. destruct (Rle_dec a b); split; intros; try easy; lra.
Qed.

Lemma Reqb_true (a b : R) : Reqb a b = true <-> a = b.
Proof. unfold Reqb. destruct (Req_dec_T a b); split; intros; try easy. Qed.

Lemma Reqb_false (a b : R) : Reqb a b = false <-> a <> b.
Proof. unfold Reqb. destruct (Req_dec_T a b); split; intros; try easy. Qed.

(** Case analysis on every comparison in the goal, closing the branches
    that linear arithmetic refutes. *)
Ltac Rcases :=
  unfold Rgtb, Rgeb, Rltb, Rleb, Reqb in *;
  repeat match goal with
         | |- context [Rlt_dec ?a ?b] => destruct (Rlt_dec a b); try lra
         | |- context [Rle_dec ?a ?b] => destruct (Rle_dec a b); try lra
         | |- context [Req_dec_T ?a ?b] => destruct (Req_dec_T a b); try lra
         end.

(* ================================================================== *)
(** * The scatter generator *)

Section Scatter.

Import ScatterData.

(** One state update of the generator never leaves the range in which a
    double holds integers exactly. *)
Lemma rngStep_fits_double (state : Z) :
  (0 <= state < 4294967296)%Z ->
  (0 <= 1664525 * state + 1013904223 < 2 ^ 53)%Z.
Proof. intros H. change (2 ^ 53)%Z with 9007199254740992%Z. lia. Qed.

Lemma rngStep_range (state : Z) : (0 <= rngStep state < 4294967296)%Z.
Proof. unfold rngStep. apply Z.mod_pos_bound. lia. Qed.

Lemma specState_succ (k : nat) : specState (S k) = rngStep (specState k).
Proof. reflexivity. Qed.

Lemma specState_range (k : nat) : (0 <= specState k < 4294967296)%Z.
Proof.
  destruct k as [|k].
  - unfold specState, specSeed. simpl. lia.
  - rewrite specState_succ. apply rngStep_range.
Qed.

(** Along the stream every update is exact in double arithmetic. *)
Lemma specState_fits_double (k : nat) :
  (0 <= 1664525 * specState k + 1013904223 < 2 ^ 53)%Z.
Proof. apply rngStep_fits_double, specState_range. Qed.

Lemma specDraw_range (k : nat) : 0 <= specDraw k < 1.
Proof.
  unfold specDraw.
  destruct (specState_range k) as [Hlo Hhi].
  apply IZR_le in Hlo. apply IZR_lt in Hhi.
  split.
  - apply Rmult_le_pos; [exact Hlo | lra].
  - apply Rmult_lt_reg_r with 4294967296; [lra|].
    unfold Rdiv. rewrite Rmult_assoc, Rinv_l by lra. lra.
Qed.

Lemma rand_specState (k : nat) :
  rand (specState k) = (specDraw (S k), specState (S k)).
Proof. reflexivity. Qed.

(** [Math.floor] of a number in [[0, n)] is an integer in [0 .. n-1]. *)
Lemma Zfloor_range (v : R) (n : Z) :
  0 <= v < IZR n -> (0 <= Zfloor v <= n - 1)%Z.
Proof.
  intros [Hlo Hhi].
  destruct (Zfloor_bound v) as [Hfl Hfu].
  assert (H1 : (Zfloor v < n)%Z) by (apply lt_IZR; lra).
  assert (H2 : (-1 < Zfloor v)%Z) by (apply lt_IZR; lra).
  lia.
Qed.

Lemma scatterBody_spec (count : Z) (startRadius wallRadius : R) (i : nat)
    (objects : list ScatteredObject) :
  scatterBody (Z.of_nat i) count startRadius wallRadius
              (specState (7 * i)) objects
  = (specState (7 * S i),
     objects ++ [specObject count startRadius wallRadius i]).
Proof.
  unfold scatterBody.
  rewrite !rand_specState.
  replace (7 * S i)%nat with (S (S (S (S (S (S (S (7 * i))))))))%nat by lia.
  f_equal. f_equal. f_equal.
  unfold specObject, specAngle, specDistance, specJitter, specY, specType,
    specSize, specRotation, specColorIndex.
  replace (7 * i + 1)%nat with (S (7 * i)) by lia.
  replace (7 * i + 2)%nat with (S (S (7 * i))) by lia.
  replace (7 * i + 3)%nat with (S (S (S (7 * i)))) by lia.
  replace (7 * i + 4)%nat with (S (S (S (S (7 * i))))) by lia.
  replace (7 * i + 5)%nat with (S (S (S (S (S (7 * i)))))) by lia.
  replace (7 * i + 6)%nat with (S (S (S (S (S (S (7 * i))))))) by lia.
  replace (7 * i + 7)%nat with (S (S (S (S (S (S (S (7 * i)))))))) by lia.
  f_equal.
  - f_equal; [f_equal|]; f_equal; f_equal; lra.
  - lra.
Qed.

Lemma scatterLoop_spec (count : Z) (startRadius wallRadius : R) :
  forall (n i : nat) (objects : list ScatteredObject),
    scatterLoop n (Z.of_nat i) count startRadius wallRadius
                (specState (7 * i)) objects
    = objects ++ map (specObject count startRadius wallRadius) (seq i n).
Proof.
  induction n as [|n IH]; intros i objects.
  - simpl. now rewrite app_nil_r.
  - cbn [scatterLoop]. rewrite scatterBody_spec.
    replace (Z.of_nat i + 1)%Z with (Z.of_nat (S i)) by lia.
    rewrite IH. cbn [seq map]. now rewrite <- app_assoc.
Qed.

Lemma generate_eq_spec (count : Z) (startRadius wallRadius : R) :
  generateScatteredObjects count startRadius wallRadius
  = specGenerate count startRadius wallRadius.
Proof.
  unfold generateScatteredObjects, specGenerate.
  change (createRng 12345) with (specState (7 * 0)).
  change 0%Z with (Z.of_nat 0).
  now rewrite scatterLoop_spec.
Qed.

Lemma specType_range (i : nat) : (0 <= specType i <= 3)%Z.
Proof.
  unfold specType.
  pose proof (specDraw_range (7 * i + 4)) as H.
  change 3%Z with (4 - 1)%Z. apply Zfloor_range. lra.
Qed.

Lemma specColorIndex_range (i : nat) : (0 <= specColorIndex i <= 5)%Z.
Proof.
  unfold specColorIndex.
  pose proof (specDraw_range (7 * i + 7)) as H.
  change 5%Z with (6 - 1)%Z. apply Zfloor_range. lra.
Qed.

Lemma specRotation_range (i : nat) : 0 <= specRotation i < 2 * PI.
Proof.
  unfold specRotation.
  pose proof (specDraw_range (7 * i + 6)) as H.
  pose proof PI_RGT_0 as Hpi.
  nra.
Qed.

Lemma specDistance_range (startRadius wallRadius : R) (i : nat) :
  startRadius + 5 < wallRadius ->
  startRadius <= specDistance startRadius wallRadius i < wallRadius - 5.
Proof.
  intros Hgap. unfold specDistance.
  pose proof (specDraw_range (7 * i + 2)) as H.
  nra.
Qed.

Lemma generate_length (count : Z) (startRadius wallRadius : R) :
  List.length (generateScatteredObjects count startRadius wallRadius)
  = Z.to_nat count.
Proof.
  rewrite generate_eq_spec. unfold specGenerate.
  now rewrite length_map, length_seq.
Qed.

(** Every generated object has a type among 0, 1, 2, 3. *)
Lemma generate_types (count : Z) (startRadius wallRadius : R) :
  Forall (fun o => (0 <= type o <= 3)%Z)
         (generateScatteredObjects count startRadius wallRadius).
Proof.
  rewrite generate_eq_spec. unfold specGenerate.
  apply Forall_forall. intros o Hin.
  apply in_map_iff in Hin. destruct Hin as [i [<- _]].
  apply specType_range.
Qed.

End Scatter.

Section ScatterClaims.

Import ScatterData.

(** C1 (amended).  [generateScatteredObjects] returns exactly the sequence
    the specification describes: one stream of the generator
    [state = (1664525 * state + 1013904223) mod 2^32] seeded with 12345,
    output [state / 2^32], seven draws per object in the order jitter,
    distance, Y, type, size, rotation, colour.  Jitter is in [0, 0.5], Y in
    [0, 5), type in 0..3, size in [1, 4), rotation in [0, 2 pi), colour in
    0..5; the distance lies in [startRadius, wallRadius - 5) when
    [startRadius + 5 < wallRadius].  Two invocations with equal parameters
    return equal sequences. *)
Theorem generate_follows_stream (count : Z) (startRadius wallRadius : R) :
  generateScatteredObjects count startRadius wallRadius
  = specGenerate count startRadius wallRadius
  /\ List.length (generateScatteredObjects count startRadius wallRadius)
     = Z.to_nat count
  /\ (forall i : nat,
        0 <= specJitter i <= 0.5
        /\ 0 <= specY i < 5
        /\ (0 <= specType i <= 3)%Z
        /\ 1 <= specSize i < 4
        /\ 0 <= specRotation i < 2 * PI
        /\ (0 <= specColorIndex i <= 5)%Z)
  /\ (startRadius + 5 < wallRadius ->
      forall i : nat,
        startRadius <= specDistance startRadius wallRadius i
        < wallRadius - 5)
  /\ (forall (count' : Z) (startRadius' wallRadius' : R),
        count' = count -> startRadius' = startRadius ->
        wallRadius' = wallRadius ->
        generateScatteredObjects count' startRadius' wallRadius'
        = generateScatteredObjects count startRadius wallRadius).
Proof.
  split; [apply generate_eq_spec|].
  split; [apply generate_length|].
  split.
  { intros i.
    pose proof (specDraw_range (7 * i + 1)) as H1.
    pose proof (specDraw_range (7 * i + 3)) as H3.
    pose proof (specDraw_range (7 * i + 5)) as H5.
    unfold specJitter, specY, specSize.
    repeat split; try lra.
    - apply specType_range.
    - apply specType_range.
    - apply specRotation_range.
    - apply specRotation_range.
    - apply specColorIndex_range.
    - apply specColorIndex_range. }
  split.
  { intros Hgap i. now apply specDistance_range. }
  intros count' s' w' -> -> ->. reflexivity.
Qed.

Lemma generate_follows_stream_witness :
  5 <= specDistance 5 75 0 < 75 - 5.
Proof.
  destruct (generate_follows_stream 60 5 75) as (_ & _ & _ & Hdist & _).
  apply Hdist. lra.
Defined.

(** C1 as stated fails for parameters with [wallRadius - 5 <= startRadius]:
    [generateScatteredObjects 1 10 10] places its object at distance
    [10 - 5 * (71072467 / 2^32)], below [startRadius = 10] and outside
    [[startRadius, wallRadius - 5)]. *)
Lemma generate_distance_outside_range :
  let angle := 0 / 1 * PI * 2 + 87628868 / 4294967296 * 0.5 in
  let distance := 10 + 71072467 / 4294967296 * (10 - 10 - 5) in
  map position (generateScatteredObjects 1 10 10)
  = [(cos angle * distance, 2332836374 / 4294967296 * 5,
      sin angle * distance)]
  /\ distance < 10
  /\ ~ (10 <= distance < 10 - 5).
Proof.
  intros angle distance. subst angle distance.
  split; [|split; lra].
  rewrite generate_eq_spec. unfold specGenerate.
  change (Z.to_nat 1) with 1%nat. cbn [seq map].
  unfold specObject. cbn [position].
  unfold specAngle, specJitter, specDistance, specY, specDraw.
  change (7 * 0 + 1)%nat with 1%nat.
  change (7 * 0 + 2)%nat with 2%nat.
  change (7 * 0 + 3)%nat with 3%nat.
  replace (specState 1) with 87628868%Z by (vm_compute; reflexivity).
  replace (specState 2) with 71072467%Z by (vm_compute; reflexivity).
  replace (specState 3) with 2332836374%Z by (vm_compute; reflexivity).
  change (Z.of_nat 0) with 0%Z.
  replace (0 / 1 * (2 * PI)) with (0 / 1 * PI * 2) by lra.
  reflexivity.
Qed.

End ScatterClaims.

(* ================================================================== *)
(** * The collision index *)

Section CollisionIndex.

Import Three Player PlayerSpec.

Lemma forEach_app {A B : Type} (f : A -> list B -> list B) :
  (forall a bounds, f a bounds = bounds ++ f a []) ->
  forall arr bounds,
    forEach arr f bounds = bounds ++ flat_map (fun a => f a []) arr.
Proof.
  intros Hf. unfold forEach.
  induction arr as [|a arr IH]; intros bounds; cbn [fold_left flat_map].
  - now rewrite app_nil_r.
  - rewrite IH, (Hf a bounds). now rewrite <- app_assoc.
Qed.

Lemma pushColumn_app (p : R * R * R) (bounds : list CollisionBounds) :
  pushColumn p bounds = bounds ++ pushColumn p [].
Proof.
  destruct p as [[px py] pz]. unfold pushColumn, push. cbn [app].
  now rewrite <- !app_assoc.
Qed.

Lemma pushColumn_nil (p : R * R * R) : pushColumn p [] = columnShapes p.
Proof. destruct p as [[px py] pz]. reflexivity. Qed.

Lemma pushScattered_app (o : ScatterData.ScatteredObject)
    (bounds : list CollisionBounds) :
  pushScattered o bounds = bounds ++ pushScattered o [].
Proof.
  unfold pushScattered, push.
  destruct (ScatterData.position o) as [[px py] pz].
  repeat match goal with
         | |- context [if ?b then _ else _] => destruct b
         end; cbn [app]; try reflexivity.
  now rewrite app_nil_r.
Qed.

(** An object of type 0..3 pushes its one shape; any other pushes none. *)
Lemma pushScattered_valid (o : ScatterData.ScatteredObject) :
  validType o -> pushScattered o [] = [scatterShape o].
Proof.
  unfold validType, pushScattered, scatterShape, push. intros Hty.
  destruct (ScatterData.position o) as [[px py] pz].
  assert (Hcases : ScatterData.type o = 0%Z \/ ScatterData.type o = 1%Z
                   \/ ScatterData.type o = 2%Z \/ ScatterData.type o = 3%Z)
    by lia.
  destruct Hcases as [-> | [-> | [-> | ->]]]; reflexivity.
Qed.

Lemma pushScattered_invalid (o : ScatterData.ScatteredObject) :
  ~ validType o -> pushScattered o [] = [].
Proof.
  unfold validType, pushScattered, push. intros Hty.
  destruct (ScatterData.position o) as [[px py] pz].
  destruct (Z.eqb_spec (ScatterData.type o) 0); [lia|].
  destruct (Z.eqb_spec (ScatterData.type o) 1); [lia|].
  destruct (Z.eqb_spec (ScatterData.type o) 2); [lia|].
  destruct (Z.eqb_spec (ScatterData.type o) 3); [lia|].
  reflexivity.
Qed.

(** The index for any list: columns, statue, then what each object pushes. *)
Lemma generateCollisionBounds_shape
    (objs : list ScatterData.ScatteredObject) :
  generateCollisionBounds objs
  = flat_map columnShapes columnPositions ++ statueShapes
    ++ flat_map (fun o => pushScattered o []) objs.
Proof.
  unfold generateCollisionBounds.
  rewrite (forEach_app pushScattered pushScattered_app).
  rewrite (forEach_app pushColumn pushColumn_app).
  unfold push. cbn [app x y z].
  rewrite <- !app_assoc. cbn [app].
  f_equal.
Qed.

Lemma flat_map_valid (objs : list ScatterData.ScatteredObject) :
  Forall validType objs ->
  flat_map (fun o => pushScattered o []) objs = map scatterShape objs.
Proof.
  induction 1 as [|o objs Ho _ IH]; cbn [flat_map map]; [reflexivity|].
  now rewrite pushScattered_valid, IH.
Qed.

(** C4.  For every list of scattered objects, a scattered object having one
    of the four primitive types 0, 1, 2, 3 of the data model, the collision
    index is the 18 column shapes (three per column position: base box,
    shaft cylinder, capital box), then the 4 statue shapes, then exactly one
    shape per object in order: box (size, size*1.5, size) for type 0,
    cylinder of radius size*0.5 and height size*2 for type 1, sphere of
    radius size*0.7 for type 2, cylinder of radius size*0.7 and height
    size*2 for type 3.  Its length is 18 + 4 + n. *)
Theorem collision_index_shapes (objs : list ScatterData.ScatteredObject) :
  Forall validType objs ->
  generateCollisionBounds objs
  = flat_map columnShapes columnPositions ++ statueShapes
    ++ map scatterShape objs
  /\ List.length (flat_map columnShapes columnPositions) = 18%nat
  /\ List.length statueShapes = 4%nat
  /\ List.length (generateCollisionBounds objs)
     = (18 + 4 + List.length objs)%nat.
Proof.
  intros Hvalid.
  assert (Heq : generateCollisionBounds objs
                = flat_map columnShapes columnPositions ++ statueShapes
                  ++ map scatterShape objs).
  { rewrite generateCollisionBounds_shape. now rewrite flat_map_valid. }
  split; [exact Heq|].
  split; [reflexivity|].
  split; [reflexivity|].
  rewrite Heq, !length_app, length_map. reflexivity.
Qed.

Lemma collision_index_shapes_witness :
  List.length (generateCollisionBounds
                 [ScatterData.mkScatteredObject (6, 0, 0) 2 1 0 0 "obj-0"])
  = (18 + 4 + 1)%nat.
Proof.
  apply (collision_index_shapes
           [ScatterData.mkScatteredObject (6, 0, 0) 2 1 0 0 "obj-0"]).
  constructor; [|constructor].
  unfold validType. cbn. lia.
Defined.

(** Outside the data model: a value whose type field is not 0..3 gets no
    shape, so a list holding one such value gives the 22 fixed shapes. *)
Lemma collision_index_skips_unknown_type :
  List.length (generateCollisionBounds
                 [ScatterData.mkScatteredObject (6, 0, 0) 4 1 0 0 "obj-0"])
  = 22%nat
  /\ 22%nat <> (18 + 4 + 1)%nat.
Proof.
  split; [|discriminate].
  rewrite generateCollisionBounds_shape.
  cbn [flat_map]. rewrite pushScattered_invalid.
  - reflexivity.
  - unfold validType. cbn. lia.
Qed.

(** The index the component uses has 18 + 4 + 60 shapes. *)
Lemma staticCollisionBounds_length :
  List.length staticCollisionBounds = 82%nat.
Proof.
  unfold staticCollisionBounds, scatteredObjects,
    ScatterData.defaultScatteredObjects.
  rewrite generateCollisionBounds_shape, flat_map_valid
    by apply generate_types.
  rewrite !length_app, length_map, generate_length. reflexivity.
Qed.

End CollisionIndex.

(* ================================================================== *)
(** * The frame callback *)

Section FrameCallback.

Import Three Player PlayerSpec.

Lemma useFrame_unlocked (bounds : list CollisionBounds) (delta : R)
    (applyEuler : Vector3 -> Vector3) (s : State) :
  isLocked s = false -> useFrame bounds delta applyEuler s = s.
Proof. intros H. unfold useFrame. now rewrite H. Qed.

Lemma useFrame_locked (bounds : list CollisionBounds) (delta : R)
    (applyEuler : Vector3 -> Vector3) (s : State) :
  isLocked s = true ->
  useFrame bounds delta applyEuler s
  = let xz := horizontalMove bounds (newX delta applyEuler s)
                             (newZ delta applyEuler s) s in
    mkState true (moveState s) (groundVelocity delta s) (isOnGround delta s)
            (vec3 (fst xz) (groundHeight delta s) (snd xz))
            (updateFog (fst xz) (snd xz) (scene_fog s)).
Proof. intros H. unfold useFrame. now rewrite H. Qed.

(** ** Duck / stand blending *)


Lemma blendHeight_stand (delta cy : R) :
  cy < GROUND_HEIGHT ->
  blendHeight false delta cy = Rmin GROUND_HEIGHT (cy + 15 * delta).
Proof.
  intros H. unfold blendHeight.
  destruct (Rltb cy GROUND_HEIGHT) eqn:E; [reflexivity|].
  apply Rltb_false in E. lra.
Qed.





End FrameCallback.

(* ================================================================== *)
(** * Fog *)

Section FogOutput.

Import Three Player PlayerSpec.

(** [Math.max(0, Math.min(1, v))] is the clamp of [v] to [[0, 1]]. *)
Lemma fogIntensity_clamp (d : R) : fogIntensity d = intensity d.
Proof.
  unfold fogIntensity, intensity.
  generalize ((d - FOG_START_DISTANCE)
              / (FOG_MAX_DISTANCE - FOG_START_DISTANCE)).
  intros v. unfold clamp, Rmax, Rmin, Rgtb, Rltb.
  destruct (Rle_dec 1 v), (Rlt_dec v 0), (Rlt_dec 1 v);
    match goal with
    | |- context [Rle_dec ?a ?b] => destruct (Rle_dec a b)
    end; lra.
Qed.

Lemma intensity_below (d : R) : d <= FOG_START_DISTANCE -> intensity d = 0.
Proof.
  unfold intensity, clamp, FOG_START_DISTANCE, FOG_MAX_DISTANCE.
  replace (100 - 25) with 75 by lra.
  intros H. Rcases.
Qed.

Lemma intensity_above (d : R) : FOG_MAX_DISTANCE <= d -> intensity d = 1.
Proof.
  unfold intensity, clamp, FOG_START_DISTANCE, FOG_MAX_DISTANCE.
  replace (100 - 25) with 75 by lra.
  intros H. Rcases.
Qed.

Lemma intensity_monotone (d1 d2 : R) :
  d1 <= d2 -> intensity d1 <= intensity d2.
Proof.
  unfold intensity, clamp, FOG_START_DISTANCE, FOG_MAX_DISTANCE.
  replace (100 - 25) with 75 by lra.
  intros H. Rcases.
Qed.

Lemma distanceTo_center (cx cz : R) :
  distanceTo (vec3 cx 0 cz) CENTER = sqrt (cx * cx + cz * cz).
Proof.
  unfold distanceTo, CENTER. cbn [x y z]. f_equal. ring.
Qed.

(** C9.  After an active tick on a scene that has a fog, with [d] the planar
    distance of the committed position from the origin and
    [intensity d = clamp((d - 25) / (100 - 25), 0, 1)], the fog has
    [near = 5 + intensity * 15] and [far = 30 + intensity * 40]; near and
    far are non-decreasing in [d]; the intensity is 0 for every [d <= 25]
    and 1 for every [d >= 100]. *)
Theorem fog_follows_distance (bounds : list CollisionBounds) (delta : R)
    (applyEuler : Vector3 -> Vector3) (s : State) (fog : Fog) :
  isLocked s = true ->
  scene_fog s = Some fog ->
  let s' := useFrame bounds delta applyEuler s in
  let d := planarDistance s' in
  scene_fog s' = Some (mkFog (5 + intensity d * 15) (30 + intensity d * 40))
  /\ (forall d1 d2 : R,
        d1 <= d2 -> fogNear d1 <= fogNear d2 /\ fogFar d1 <= fogFar d2)
  /\ (forall d0 : R, d0 <= FOG_START_DISTANCE -> intensity d0 = 0)
  /\ (forall d0 : R, FOG_MAX_DISTANCE <= d0 -> intensity d0 = 1).
Proof.
  intros Hlocked Hfog s' d. subst s' d.
  split; [|split; [|split]].
  - rewrite (useFrame_locked _ _ _ _ Hlocked).
    cbn [scene_fog]. unfold planarDistance. cbn [camera_position x z].
    rewrite Hfog. unfold updateFog.
    now rewrite distanceTo_center, fogIntensity_clamp.
  - intros d1 d2 Hle. pose proof (intensity_monotone d1 d2 Hle).
    unfold fogNear, fogFar. lra.
  - apply intensity_below.
  - apply intensity_above.
Qed.

Lemma fog_follows_distance_witness :
  scene_fog (useFrame staticCollisionBounds (1 / 8) noRotation standing)
  = Some (mkFog
            (5 + intensity
                   (planarDistance
                      (useFrame staticCollisionBounds (1 / 8) noRotation
                                standing)) * 15)
            (30 + intensity
                    (planarDistance
                       (useFrame staticCollisionBounds (1 / 8) noRotation
                                 standing)) * 40)).
Proof.
  apply (fog_follows_distance staticCollisionBounds (1 / 8) noRotation
           standing (mkFog 5 30)); reflexivity.
Defined.

End FogOutput.

(* ================================================================== *)
(** * Horizontal movement: wall and obstacles *)

Section HorizontalMove.

Import Three Player PlayerSpec.

Lemma sqrt_lt_bound (v r : R) : 0 <= r -> sqrt v < r -> v < r * r.
Proof.
  intros Hr Hlt.
  destruct (Rlt_dec v (r * r)) as [|Hge]; [assumption|].
  exfalso. apply Rnot_lt_le in Hge.
  apply sqrt_le_1_alt in Hge. rewrite sqrt_square in Hge by assumption. lra.
Qed.

Lemma sqrt_le_bound (v r : R) : 0 <= r -> v <= r * r -> sqrt v <= r.
Proof.
  intros Hr Hle. apply sqrt_le_1_alt in Hle.
  now rewrite sqrt_square in Hle.
Qed.

Lemma sqrt_le_bound_inv (v r : R) : 0 <= v -> sqrt v <= r -> v <= r * r.
Proof.
  intros Hv Hle.
  rewrite <- (sqrt_sqrt v Hv).
  pose proof (sqrt_pos v). nra.
Qed.

Lemma on_circle (angle r : R) :
  0 <= r ->
  sqrt (cos angle * r * (cos angle * r) + sin angle * r * (sin angle * r)) = r.
Proof.
  intros Hr.
  pose proof (sin2_cos2 angle) as H. unfold Rsqr in H.
  replace (cos angle * r * (cos angle * r) + sin angle * r * (sin angle * r))
    with ((sin angle * sin angle + cos angle * cos angle) * (r * r)) by ring.
  rewrite H, Rmult_1_l. now apply sqrt_square.
Qed.

(** [atan2 zc xc] is the angle of the point [(xc, zc)]: its cosine and sine
    are the coordinates divided by the distance from the origin. *)
Lemma sqrt_slope (zc xc : R) :
  0 < xc ->
  sqrt (1 + (zc / xc)²) = sqrt (xc * xc + zc * zc) / xc.
Proof.
  intros Hx.
  assert (Hd : 0 <= sqrt (xc * xc + zc * zc)) by apply sqrt_pos.
  apply sqrt_lem_1.
  - unfold Rsqr. nra.
  - apply Rmult_le_pos; [assumption|].
    left. now apply Rinv_0_lt_compat.
  - unfold Rsqr.
    replace (sqrt (xc * xc + zc * zc) / xc * (sqrt (xc * xc + zc * zc) / xc))
      with (sqrt (xc * xc + zc * zc) * sqrt (xc * xc + zc * zc) / (xc * xc))
      by (field; lra).
    rewrite sqrt_sqrt by nra. field. lra.
Qed.

Lemma atan_direction (zc xc : R) :
  0 < xc ->
  cos (atan (zc / xc)) = xc / sqrt (xc * xc + zc * zc)
  /\ sin (atan (zc / xc)) = zc / sqrt (xc * xc + zc * zc).
Proof.
  intros Hx.
  assert (Hd : 0 < sqrt (xc * xc + zc * zc)) by (apply sqrt_lt_R0; nra).
  rewrite cos_atan, sin_atan, sqrt_slope by assumption.
  split; field; lra.
Qed.

Lemma atan2_direction (zc xc : R) :
  0 < sqrt (xc * xc + zc * zc) ->
  cos (atan2 zc xc) = xc / sqrt (xc * xc + zc * zc)
  /\ sin (atan2 zc xc) = zc / sqrt (xc * xc + zc * zc).
Proof.
  intros Hd. unfold atan2, Rltb, Rleb.
  destruct (Rlt_dec 0 xc) as [Hpos|Hnpos].
  - now apply atan_direction.
  - destruct (Rlt_dec xc 0) as [Hneg|Hnneg].
    + assert (Hx : 0 < - xc) by lra.
      destruct (atan_direction (- zc) (- xc) Hx) as [Hc Hs].
      replace (- zc / - xc) with (zc / xc) in Hc, Hs by (field; lra).
      replace (- xc * - xc + - zc * - zc) with (xc * xc + zc * zc)
        in Hc, Hs by ring.
      destruct (Rle_dec 0 zc).
      * rewrite neg_cos, neg_sin, Hc, Hs. split; field; lra.
      * rewrite cos_minus, sin_minus, cos_PI, sin_PI, Hc, Hs.
        split; field; lra.
    + assert (Hx0 : xc = 0) by lra. subst xc.
      replace (0 * 0 + zc * zc) with (zc * zc) in * by ring.
      destruct (Rlt_dec 0 zc) as [Hzp|Hznp].
      * rewrite sqrt_square by lra. rewrite cos_PI2, sin_PI2.
        split; field; lra.
      * destruct (Rlt_dec zc 0) as [Hzn|Hznn].
        -- replace (zc * zc) with (- zc * - zc) by ring.
           rewrite sqrt_square by lra.
           replace (- PI / 2) with (- (PI / 2)) by lra.
           rewrite cos_neg, sin_neg, cos_PI2, sin_PI2.
           split; field; lra.
        -- assert (Hz0 : zc = 0) by lra. subst zc.
           rewrite Rmult_0_l, sqrt_0 in Hd. lra.
Qed.

(** The wall branch puts the camera on the wall circle. *)
Lemma horizontalMove_wall (bounds : list CollisionBounds) (nx nz : R)
    (s : State) :
  WALL_RADIUS <= distanceFromCenter nx nz ->
  horizontalMove bounds nx nz s
  = (cos (atan2 nz nx) * WALL_RADIUS, sin (atan2 nz nx) * WALL_RADIUS).
Proof.
  intros H. unfold horizontalMove, Rgeb.
  now rewrite (proj2 (Rleb_true _ _) H).
Qed.

(** The other branch: the candidate when the probe is free, else the old
    position. *)
Lemma horizontalMove_inside (bounds : list CollisionBounds) (nx nz : R)
    (s : State) :
  distanceFromCenter nx nz < WALL_RADIUS ->
  horizontalMove bounds nx nz s
  = if checkCollision bounds (vec3 nx (currentHeight s) nz) (currentHeight s)
    then (x (camera_position s), z (camera_position s))
    else (nx, nz).
Proof.
  intros H. unfold horizontalMove, Rgeb.
  rewrite (proj2 (Rleb_false _ _) H).
  now destruct (checkCollision _ _ _).
Qed.

Lemma horizontalMove_within_wall (bounds : list CollisionBounds) (nx nz : R)
    (s : State) :
  planarDistance s <= WALL_RADIUS ->
  let xz := horizontalMove bounds nx nz s in
  sqrt (fst xz * fst xz + snd xz * snd xz) <= WALL_RADIUS.
Proof.
  intros Hinv xz. subst xz.
  destruct (Rle_dec WALL_RADIUS (distanceFromCenter nx nz)) as [Hw|Hw].
  - rewrite horizontalMove_wall by assumption. cbn [fst snd].
    rewrite on_circle; unfold WALL_RADIUS; lra.
  - apply Rnot_le_lt in Hw. rewrite horizontalMove_inside by assumption.
    destruct (checkCollision _ _ _); cbn [fst snd].
    + exact Hinv.
    + unfold distanceFromCenter in Hw. lra.
Qed.

(** C3.  In an active tick: when the candidate's planar distance from the
    origin is at least WALL_RADIUS, the committed position is exactly
    [(cos a * WALL_RADIUS, sin a * WALL_RADIUS)] for [a = atan2(newZ, newX)],
    which is the candidate scaled radially onto the wall circle, at distance
    WALL_RADIUS from the origin; and whenever the position before the tick is
    within WALL_RADIUS of the origin, so is the position after it. *)
Theorem wall_containment (bounds : list CollisionBounds) (delta : R)
    (applyEuler : Vector3 -> Vector3) (s : State) :
  isLocked s = true ->
  let nx := newX delta applyEuler s in
  let nz := newZ delta applyEuler s in
  let s' := useFrame bounds delta applyEuler s in
  (WALL_RADIUS <= distanceFromCenter nx nz ->
   x (camera_position s') = cos (atan2 nz nx) * WALL_RADIUS
   /\ z (camera_position s') = sin (atan2 nz nx) * WALL_RADIUS
   /\ x (camera_position s') = nx / distanceFromCenter nx nz * WALL_RADIUS
   /\ z (camera_position s') = nz / distanceFromCenter nx nz * WALL_RADIUS
   /\ planarDistance s' = WALL_RADIUS)
  /\ (planarDistance s <= WALL_RADIUS -> planarDistance s' <= WALL_RADIUS).
Proof.
  intros Hlocked nx nz s'. subst nx nz s'.
  rewrite (useFrame_locked _ _ _ _ Hlocked).
  unfold planarDistance at 1 3. cbn [camera_position x z].
  split.
  - intros Hw. rewrite horizontalMove_wall by assumption. cbn [fst snd].
    assert (Hd : 0 < sqrt (newX delta applyEuler s * newX delta applyEuler s
                           + newZ delta applyEuler s
                             * newZ delta applyEuler s)).
    { unfold distanceFromCenter, WALL_RADIUS in Hw. lra. }
    destruct (atan2_direction _ _ Hd) as [Hcos Hsin].
    unfold distanceFromCenter.
    split; [reflexivity|]. split; [reflexivity|].
    split; [now rewrite Hcos|]. split; [now rewrite Hsin|].
    apply on_circle. unfold WALL_RADIUS. lra.
  - intros Hinv. now apply horizontalMove_within_wall.
Qed.

Lemma wall_containment_witness :
  planarDistance (useFrame staticCollisionBounds (1 / 8) noRotation standing)
  <= WALL_RADIUS.
Proof.
  assert (Hlocked : isLocked standing = true) by reflexivity.
  destruct (wall_containment staticCollisionBounds (1 / 8) noRotation
              standing Hlocked) as [_ Hinv].
  apply Hinv.
  unfold planarDistance, standing, WALL_RADIUS. cbn [camera_position x z].
  apply sqrt_le_bound; lra.
Defined.

End HorizontalMove.

(* ================================================================== *)
(** * Keyboard handlers *)

Section Keyboard.

Import Three Player PlayerSpec.

Ltac break_ifs :=
  repeat match goal with
         | |- context [if ?b then _ else _] => destruct b eqn:?
         | |- context [match ?o with Some _ => _ | None => _ end] =>
             destruct o eqn:?
         end.

Lemma handleKeyDown_unlocked (e : KeyboardEvent) (s : State) :
  isLocked s = false -> handleKeyDown e s = s.
Proof. intros H. unfold handleKeyDown. now rewrite H. Qed.

(** Neither handler touches the camera, the lock or the fog. *)
Lemma handleKeyDown_frame (e : KeyboardEvent) (s : State) :
  camera_position (handleKeyDown e s) = camera_position s
  /\ isLocked (handleKeyDown e s) = isLocked s
  /\ scene_fog (handleKeyDown e s) = scene_fog s.
Proof. unfold handleKeyDown, withMoveState. break_ifs; auto. Qed.

Lemma handleKeyUp_frame (e : KeyboardEvent) (s : State) :
  sameKinematics (handleKeyUp e s) s
  /\ isLocked (handleKeyUp e s) = isLocked s
  /\ scene_fog (handleKeyUp e s) = scene_fog s.
Proof.
  unfold handleKeyUp, withMoveState, sameKinematics. break_ifs; auto.
Qed.

(** A key-down either keeps velocity and grounded flag, or is an honoured
    jump. *)
Lemma handleKeyDown_vertical (e : KeyboardEvent) (s : State) :
  (velocityY (handleKeyDown e s) = velocityY s
   /\ isGrounded (handleKeyDown e s) = isGrounded s)
  \/ (isLocked s = true /\ code e = "Space"%string
      /\ isGrounded s = true /\ velocityY s = 0
      /\ velocityY (handleKeyDown e s) = JUMP_FORCE
      /\ isGrounded (handleKeyDown e s) = false).
Proof.
  unfold handleKeyDown.
  destruct (isLocked s) eqn:Hl; cbn [negb]; [|now left].
  set (s1 := if ctrlKey e || isControl (code e)
             then withMoveState (setDuck true (moveState s)) s else s).
  set (s2 := if shiftKey e || isShift (code e)
             then withMoveState (setSlowWalk true (moveState s1)) s1 else s1).
  assert (Hv : velocityY s2 = velocityY s /\ isGrounded s2 = isGrounded s).
  { subst s2 s1. unfold withMoveState. break_ifs; auto. }
  destruct Hv as [Hv Hg].
  destruct (KEYS (code e)) as [name|]; [|now left].
  destruct (String.eqb_spec (code e) "Space") as [Hsp|Hsp].
  - destruct (isGrounded s2 && Reqb (velocityY s2) 0) eqn:Hcond.
    + apply andb_true_iff in Hcond. destruct Hcond as [Hg2 Hv2].
      apply Reqb_true in Hv2. right. cbn [velocityY isGrounded].
      repeat split; congruence.
    + now left.
  - left. unfold withMoveState. cbn [velocityY isGrounded]. auto.
Qed.

Lemma setFlag_false_le (name : string) (m : MoveState) :
  flagsLe (setFlag name false m) m.
Proof.
  unfold setFlag, flagsLe.
  break_ifs; cbn [forward backward left right jump duck slowWalk];
    repeat split; auto; discriminate.
Qed.

Lemma flagsLe_refl (m : MoveState) : flagsLe m m.
Proof. unfold flagsLe. tauto. Qed.

Lemma flagsLe_trans (m1 m2 m3 : MoveState) :
  flagsLe m1 m2 -> flagsLe m2 m3 -> flagsLe m1 m3.
Proof. unfold flagsLe. tauto. Qed.

Lemma setDuck_false_le (m : MoveState) : flagsLe (setDuck false m) m.
Proof.
  unfold setDuck, flagsLe.
  cbn [forward backward left right jump duck slowWalk].
  repeat split; auto; discriminate.
Qed.

Lemma setSlowWalk_false_le (m : MoveState) : flagsLe (setSlowWalk false m) m.
Proof.
  unfold setSlowWalk, flagsLe.
  cbn [forward backward left right jump duck slowWalk].
  repeat split; auto; discriminate.
Qed.

(** A key-up only clears flags. *)
Lemma handleKeyUp_clears (e : KeyboardEvent) (s : State) :
  flagsLe (moveState (handleKeyUp e s)) (moveState s).
Proof.
  unfold handleKeyUp.
  set (s1 := if isControl (code e)
             then withMoveState (setDuck false (moveState s)) s else s).
  set (s2 := if isShift (code e)
             then withMoveState (setSlowWalk false (moveState s1)) s1
             else s1).
  set (s3 := if negb (ctrlKey e)
             then withMoveState (setDuck false (moveState s2)) s2 else s2).
  set (s4 := if negb (shiftKey e)
             then withMoveState (setSlowWalk false (moveState s3)) s3
             else s3).
  assert (H1 : flagsLe (moveState s1) (moveState s)).
  { subst s1. destruct (isControl (code e)); cbn [withMoveState moveState];
      [apply setDuck_false_le | apply flagsLe_refl]. }
  assert (H2 : flagsLe (moveState s2) (moveState s1)).
  { subst s2. destruct (isShift (code e)); cbn [withMoveState moveState];
      [apply setSlowWalk_false_le | apply flagsLe_refl]. }
  assert (H3 : flagsLe (moveState s3) (moveState s2)).
  { subst s3. destruct (negb (ctrlKey e)); cbn [withMoveState moveState];
      [apply setDuck_false_le | apply flagsLe_refl]. }
  assert (H4 : flagsLe (moveState s4) (moveState s3)).
  { subst s4. destruct (negb (shiftKey e)); cbn [withMoveState moveState];
      [apply setSlowWalk_false_le | apply flagsLe_refl]. }
  assert (H : flagsLe (moveState s4) (moveState s))
    by eauto using flagsLe_trans.
  destruct (KEYS (code e)) as [name|]; [|exact H].
  destruct (negb (code e =? "Space")%string); [|exact H].
  cbn [withMoveState moveState].
  eapply flagsLe_trans; [apply setFlag_false_le | exact H].
Qed.

(** What a Space key-down does while the pointer is locked. *)
Lemma handleKeyDown_space (e : KeyboardEvent) (s : State) :
  isLocked s = true ->
  code e = "Space"%string ->
  handleKeyDown e s
  = if isGrounded s && Reqb (velocityY s) 0
    then mkState true (spaceFlags e (moveState s)) JUMP_FORCE false
                 (camera_position s) (scene_fog s)
    else withMoveState (spaceFlags e (moveState s)) s.
Proof.
  intros Hl Hc. unfold handleKeyDown, spaceFlags. rewrite Hl, Hc.
  cbn [negb]. change (isControl "Space") with false.
  change (isShift "Space") with false. rewrite !orb_false_r.
  change (KEYS "Space") with (Some "jump"%string).
  change ("Space" =? "Space")%string with true. cbv iota.
  destruct s as [l m v g c f]. cbn in Hl. subst l.
  unfold withMoveState.
  destruct (ctrlKey e), (shiftKey e);
    cbn [moveState velocityY isGrounded camera_position scene_fog isLocked];
    destruct (g && Reqb v 0); reflexivity.
Qed.

Lemma spaceFlags_plain (e : KeyboardEvent) (m : MoveState) :
  ctrlKey e = false -> shiftKey e = false -> spaceFlags e m = m.
Proof. intros Hc Hs. unfold spaceFlags. now rewrite Hc, Hs. Qed.

Lemma spaceFlags_jump (e : KeyboardEvent) (m : MoveState) :
  jump (spaceFlags e m) = jump m.
Proof. unfold spaceFlags. now destruct (ctrlKey e), (shiftKey e). Qed.

Lemma withMoveState_same (s : State) : withMoveState (moveState s) s = s.
Proof. now destruct s. Qed.

(** C5 (amended).  A Space key-down while the simulation is inactive, or
    while Airborne, or while the vertical velocity is not 0, leaves vertical
    velocity, grounded flag and camera position unchanged (and the whole
    state when the event carries no Ctrl or Shift modifier).  A Space
    key-down while active and Grounded with vertical velocity exactly 0 sets
    the vertical velocity to exactly JUMP_FORCE and clears the grounded flag
    at once, in the handler; nothing is latched in the jump flag; the next
    integration step starts from JUMP_FORCE and integrates it to
    [JUMP_FORCE + GRAVITY * delta]. *)
Theorem jump_gating (e : KeyboardEvent) (s : State) :
  code e = "Space"%string ->
  let s' := handleKeyDown e s in
  (isLocked s = false \/ isGrounded s = false \/ velocityY s <> 0 ->
   sameKinematics s' s
   /\ (ctrlKey e = false -> shiftKey e = false -> s' = s))
  /\ (isLocked s = true -> isGrounded s = true -> velocityY s = 0 ->
      velocityY s' = JUMP_FORCE
      /\ isGrounded s' = false
      /\ camera_position s' = camera_position s
      /\ jump (moveState s') = jump (moveState s)
      /\ forall delta : R,
           integratedVelocity delta s' = JUMP_FORCE + GRAVITY * delta).
Proof.
  intros Hcode s'. subst s'. split.
  - intros Hgate.
    destruct (isLocked s) eqn:Hl.
    + rewrite (handleKeyDown_space e s Hl Hcode).
      assert (Hcond : isGrounded s && Reqb (velocityY s) 0 = false).
      { destruct Hgate as [Hf | [Hg | Hv]]; [discriminate| |].
        - now rewrite Hg.
        - apply Reqb_false in Hv. rewrite Hv. apply andb_false_r. }
      rewrite Hcond. split.
      * unfold sameKinematics, withMoveState. cbn. auto.
      * intros Hc Hs. rewrite spaceFlags_plain by assumption.
        apply withMoveState_same.
    + rewrite handleKeyDown_unlocked by assumption.
      unfold sameKinematics. auto.
  - intros Hl Hg Hv.
    rewrite (handleKeyDown_space e s Hl Hcode).
    rewrite Hg, (proj2 (Reqb_true _ _) Hv). cbn [andb].
    unfold integratedVelocity.
    cbn [velocityY isGrounded camera_position moveState].
    repeat split. apply spaceFlags_jump.
Qed.

Lemma jump_gating_witness :
  velocityY (handleKeyDown spaceKey standing) = JUMP_FORCE.
Proof.
  assert (Hcode : code spaceKey = "Space"%string) by reflexivity.
  destruct (jump_gating spaceKey standing Hcode) as [_ Hjump].
  apply Hjump; reflexivity.
Defined.

(** C5 as stated fails: from the grounded state at rest, the Space
    key-down has already set the velocity to JUMP_FORCE and cleared the
    grounded flag before any integration step runs, and after the next
    step (a quarter of a second) the velocity is 3, not JUMP_FORCE. *)
Lemma jump_applied_at_keydown :
  let s1 := handleKeyDown spaceKey standing in
  let s2 := useFrame staticCollisionBounds (1 / 4) noRotation s1 in
  isGrounded standing = true
  /\ velocityY standing = 0
  /\ velocityY s1 = JUMP_FORCE
  /\ isGrounded s1 = false
  /\ jump (moveState s1) = false
  /\ velocityY s2 = 3
  /\ velocityY s2 <> JUMP_FORCE.
Proof.
  intros s1 s2.
  assert (Hs1 : s1 = mkState true (moveState standing) JUMP_FORCE false
                             (vec3 0 2 10) (Some (mkFog 5 30))).
  { subst s1. rewrite handleKeyDown_space by reflexivity.
    cbn [standing isGrounded velocityY andb].
    rewrite (proj2 (Reqb_true 0 0) eq_refl). reflexivity. }
  assert (Hv2 : velocityY s2 = 3).
  { subst s2. rewrite Hs1, useFrame_locked by reflexivity.
    cbn [velocityY].
    unfold groundVelocity, isOnGround, integratedY, integratedVelocity,
      JUMP_FORCE, GRAVITY, GROUND_HEIGHT.
    cbn [velocityY camera_position y].
    Rcases. }
  rewrite Hs1 at 1 2 3. cbn [velocityY isGrounded moveState standing jump].
  repeat split; try reflexivity; try exact Hv2.
  rewrite Hv2. unfold JUMP_FORCE. lra.
Qed.

End Keyboard.

(* ================================================================== *)
(** * Runs of the component *)

Section Runs.

Import Three Player PlayerSpec.

(** A property of the initial state that every step preserves holds after
    every run. *)
Lemma run_invariant (bounds : list CollisionBounds) (P : State -> Prop)
    (Q : Event -> Prop) :
  P initialState ->
  (forall s ev, P s -> Q ev -> P (step bounds s ev)) ->
  forall evs, Forall Q evs -> P (run bounds evs).
Proof.
  intros Hinit Hstep evs. unfold run.
  generalize initialState Hinit. clear Hinit.
  induction evs as [|ev evs IH]; intros s Hs Hall; cbn [fold_left].
  - exact Hs.
  - inversion Hall; subst. apply IH; auto.
Qed.

Lemma step_within_wall (bounds : list CollisionBounds) (s : State)
    (ev : Event) :
  planarDistance s <= WALL_RADIUS ->
  planarDistance (step bounds s ev) <= WALL_RADIUS.
Proof.
  intros Hinv. destruct ev as [b | e | e | delta applyEuler]; cbn [step].
  - exact Hinv.
  - unfold planarDistance.
    destruct (handleKeyDown_frame e s) as [-> _]. exact Hinv.
  - unfold planarDistance.
    destruct (handleKeyUp_frame e s) as [(_ & _ & ->) _]. exact Hinv.
  - destruct (isLocked s) eqn:Hl.
    + rewrite useFrame_locked by assumption.
      unfold planarDistance at 1. cbn [camera_position x z].
      now apply horizontalMove_within_wall.
    + now rewrite useFrame_unlocked.
Qed.

(** The camera is within the wall circle after every run, whatever the
    events and frame times. *)
Lemma run_within_wall (bounds : list CollisionBounds) (evs : list Event) :
  planarDistance (run bounds evs) <= WALL_RADIUS.
Proof.
  apply (run_invariant bounds (fun s => planarDistance s <= WALL_RADIUS)
           (fun _ => True)).
  - unfold planarDistance, initialState, WALL_RADIUS.
    cbn [camera_position x z]. apply sqrt_le_bound; lra.
  - intros s ev Hs _. now apply step_within_wall.
  - apply Forall_forall. auto.
Qed.

(** ** MoveState while inactive *)

Lemma step_unlocked_flags (bounds : list CollisionBounds) (s : State)
    (ev : Event) :
  isLocked s = false -> notLock ev ->
  isLocked (step bounds s ev) = false
  /\ flagsLe (moveState (step bounds s ev)) (moveState s).
Proof.
  intros Hl Hev. destruct ev as [b | e | e | delta applyEuler]; cbn [step].
  - destruct b; [contradiction|]. split; [reflexivity|apply flagsLe_refl].
  - rewrite handleKeyDown_unlocked by assumption.
    split; [assumption|apply flagsLe_refl].
  - split; [|apply handleKeyUp_clears].
    destruct (handleKeyUp_frame e s) as (_ & -> & _). assumption.
  - rewrite useFrame_unlocked by assumption.
    split; [assumption|apply flagsLe_refl].
Qed.

Lemma flagsLe_allFalse (m' m : MoveState) :
  flagsLe m' m -> allFalse m -> allFalse m'.
Proof.
  unfold flagsLe, allFalse. intros H ->.
  cbn [forward backward left right jump duck slowWalk] in H.
  destruct m' as [[] [] [] [] [] [] []];
    cbn [forward backward left right jump duck slowWalk] in H;
    try reflexivity; exfalso; intuition discriminate.
Qed.

(** C8 (amended).  Becoming inactive does not reset the MoveState: a change
    of the lock leaves the seven flags as they are.  While the simulation is
    inactive, a key-down event and a tick leave the whole state unchanged,
    and a key-up event can only clear flags, so no flag becomes true while
    inactive; and in every state reached without any activation all seven
    flags are false. *)
Theorem inactive_flags (bounds : list CollisionBounds) (evs : list Event) :
  let s := run bounds evs in
  (forall b : bool, moveState (step bounds s (SetLocked b)) = moveState s)
  /\ (isLocked s = false ->
      (forall e, step bounds s (KeyDown e) = s)
      /\ (forall delta applyEuler, step bounds s (Frame delta applyEuler) = s)
      /\ (forall e, flagsLe (moveState (step bounds s (KeyUp e)))
                            (moveState s)))
  /\ (Forall notLock evs -> isLocked s = false /\ allFalse (moveState s)).
Proof.
  intros s. split; [reflexivity|]. split.
  - intros Hl. split; [|split].
    + intros e. cbn [step]. now apply handleKeyDown_unlocked.
    + intros delta applyEuler. cbn [step]. now apply useFrame_unlocked.
    + intros e. cbn [step]. apply handleKeyUp_clears.
  - subst s.
    apply (run_invariant bounds
             (fun s => isLocked s = false /\ allFalse (moveState s)) notLock).
    + split; reflexivity.
    + intros s ev [Hl Hm] Hev.
      destruct (step_unlocked_flags bounds s ev Hl Hev) as [Hl' Hle].
      split; [assumption|]. eapply flagsLe_allFalse; eassumption.
Qed.

Lemma inactive_flags_witness :
  allFalse (moveState (run staticCollisionBounds [KeyDown keyW])).
Proof.
  destruct (inactive_flags staticCollisionBounds [KeyDown keyW])
    as (_ & _ & Hnever).
  apply Hnever.
  constructor; [exact I | constructor].
Defined.

(** C8 as stated fails: W is pressed while the pointer is locked and the
    pointer is then unlocked; the state is inactive and the forward flag is
    still set. *)
Lemma flags_survive_unlock :
  let s := run staticCollisionBounds
               [SetLocked true; KeyDown keyW; SetLocked false] in
  isLocked s = false /\ forward (moveState s) = true.
Proof. split; reflexivity. Qed.

End Runs.

(* ================================================================== *)
(** * Vertical motion *)

Section Vertical.

Import Three Player PlayerSpec.

(** The vertical data after an active tick, as functions of the velocity
    [v] and height [cy] before it. *)
Lemma useFrame_vertical (bounds : list CollisionBounds) (delta : R)
    (applyEuler : Vector3 -> Vector3) (s : State) :
  isLocked s = true ->
  let s' := useFrame bounds delta applyEuler s in
  velocityY s' = groundVelocity delta s
  /\ isGrounded s' = isOnGround delta s
  /\ y (camera_position s') = groundHeight delta s.
Proof.
  intros Hl s'. subst s'. rewrite useFrame_locked by assumption.
  cbn. auto.
Qed.

Lemma blendHeight_upper (duck : bool) (delta cy : R) :
  0 <= delta -> cy <= GROUND_HEIGHT ->
  blendHeight duck delta cy <= GROUND_HEIGHT.
Proof.
  intros Hd Hcy.
  unfold blendHeight, GROUND_HEIGHT, DUCK_HEIGHT, Rmax, Rmin in *.
  destruct duck; Rcases.
Qed.

Lemma blendHeight_lower (duck : bool) (delta cy : R) :
  DUCK_HEIGHT <= cy + 15 * delta ->
  DUCK_HEIGHT <= blendHeight duck delta cy.
Proof.
  intros Hcy.
  unfold blendHeight, GROUND_HEIGHT, DUCK_HEIGHT, Rmax, Rmin in *.
  destruct duck; Rcases.
Qed.

(** With duck held the grounded height is in range whatever the frame
    time; standing up needs [cy + 15 delta] to reach DUCK_HEIGHT. *)
Lemma blendHeight_duck_lower (delta cy : R) :
  DUCK_HEIGHT <= blendHeight true delta cy.
Proof.
  unfold blendHeight, DUCK_HEIGHT, Rmax. Rcases.
Qed.

(** After integration over a bounded frame the camera is at most
    [15 delta] below DUCK_HEIGHT. *)
Lemma integratedY_lower (delta : R) (s : State) :
  0 <= delta <= 0.45 ->
  verticalInv s ->
  DUCK_HEIGHT <= integratedY delta s + 15 * delta.
Proof.
  intros [Hd0 Hd1] (Hy & Hv & He & Hup & _).
  unfold integratedY, integratedVelocity, GRAVITY, DUCK_HEIGHT,
    GROUND_HEIGHT, JUMP_FORCE in *.
  set (v := velocityY s) in *. set (cy := y (camera_position s)) in *.
  destruct (Rle_dec cy 2) as [Hlow|Hhigh].
  - specialize (Hup Hlow). nra.
  - apply Rnot_le_lt in Hhigh.
    assert (Hv8 : -8 < v) by nra.
    nra.
Qed.

Lemma useFrame_verticalInv (bounds : list CollisionBounds) (delta : R)
    (applyEuler : Vector3 -> Vector3) (s : State) :
  0 <= delta <= 0.45 ->
  verticalInv s ->
  verticalInv (useFrame bounds delta applyEuler s).
Proof.
  intros Hd Hinv.
  destruct (isLocked s) eqn:Hl; [|now rewrite useFrame_unlocked].
  pose proof (integratedY_lower delta s Hd Hinv) as Hlow.
  destruct (useFrame_vertical bounds delta applyEuler s Hl)
    as (Hv' & Hg' & Hy').
  unfold verticalInv. rewrite Hv', Hg', Hy'.
  unfold groundVelocity, groundHeight, isOnGround.
  destruct Hinv as (Hy & Hv & He & Hup & Hgr). destruct Hd as [Hd0 Hd1].
  destruct (Rleb (integratedY delta s) GROUND_HEIGHT) eqn:Hground.
  - apply Rleb_true in Hground.
    pose proof (blendHeight_upper (duck (moveState s)) delta _ Hd0 Hground)
      as Hbu.
    pose proof (blendHeight_lower (duck (moveState s)) delta _ Hlow) as Hbl.
    set (h := blendHeight (duck (moveState s)) delta (integratedY delta s))
      in *.
    assert (Hiv : integratedVelocity delta s <= JUMP_FORCE).
    { unfold integratedVelocity, GRAVITY, JUMP_FORCE in *. nra. }
    unfold JUMP_FORCE, GROUND_HEIGHT, DUCK_HEIGHT in *.
    destruct (Rltb (integratedVelocity delta s) 0) eqn:Hneg.
    + repeat split; try lra.
    + apply Rltb_false in Hneg.
      repeat split; try lra. nra.
  - apply Rleb_false in Hground.
    unfold integratedY, integratedVelocity, GRAVITY, JUMP_FORCE,
      GROUND_HEIGHT, DUCK_HEIGHT in *.
    set (v := velocityY s) in *. set (cy := y (camera_position s)) in *.
    repeat split; try lra; try nra; try discriminate.
Qed.

Lemma step_verticalInv (bounds : list CollisionBounds) (s : State)
    (ev : Event) :
  verticalInv s -> frameBounded ev -> verticalInv (step bounds s ev).
Proof.
  intros Hinv Hev. destruct ev as [b | e | e | delta applyEuler]; cbn [step].
  - exact Hinv.
  - unfold verticalInv in *.
    destruct (handleKeyDown_frame e s) as (-> & _ & _).
    destruct Hinv as (Hy & Hv & He & Hup & Hgr).
    destruct (handleKeyDown_vertical e s)
      as [[-> ->] | (_ & _ & Hg & Hv0 & -> & ->)].
    + auto.
    + specialize (Hgr Hg).
      unfold JUMP_FORCE, GROUND_HEIGHT, DUCK_HEIGHT in *.
      repeat split; try lra; try discriminate.
  - unfold verticalInv in *.
    destruct (handleKeyUp_frame e s) as ((-> & -> & ->) & _). exact Hinv.
  - now apply useFrame_verticalInv.
Qed.

Lemma initialState_verticalInv : verticalInv initialState.
Proof.
  unfold verticalInv, initialState, DUCK_HEIGHT, GROUND_HEIGHT, JUMP_FORCE.
  cbn. repeat split; lra.
Qed.

Lemma run_verticalInv (bounds : list CollisionBounds) (evs : list Event) :
  Forall frameBounded evs -> verticalInv (run bounds evs).
Proof.
  apply (run_invariant bounds verticalInv frameBounded).
  - exact initialState_verticalInv.
  - intros s ev. apply step_verticalInv.
Qed.

(** C7 (amended).  In every state reached through lock changes, key events
    and ticks whose elapsed times are between 0 and 0.45 seconds, an active
    tick of at most 0.45 seconds that ends Grounded leaves the camera height
    within [DUCK_HEIGHT, GROUND_HEIGHT] = [1, 2]; a tick that ends Airborne
    leaves it above GROUND_HEIGHT. *)
Theorem grounded_height_range (bounds : list CollisionBounds)
    (evs : list Event) (delta : R) (applyEuler : Vector3 -> Vector3) :
  Forall frameBounded evs ->
  0 <= delta <= 0.45 ->
  let s := run bounds evs in
  let s' := useFrame bounds delta applyEuler s in
  isLocked s = true ->
  (isGrounded s' = true ->
   DUCK_HEIGHT <= y (camera_position s') <= GROUND_HEIGHT)
  /\ (isGrounded s' = false -> GROUND_HEIGHT < y (camera_position s')).
Proof.
  intros Hevs Hd s s' Hl. subst s'.
  pose proof (run_verticalInv bounds evs Hevs) as Hinv. fold s in Hinv.
  pose proof (integratedY_lower delta s Hd Hinv) as Hlow.
  destruct (useFrame_vertical bounds delta applyEuler s Hl)
    as (_ & Hg' & Hy').
  rewrite Hg', Hy'. unfold groundHeight, isOnGround.
  destruct (Rleb (integratedY delta s) GROUND_HEIGHT) eqn:Hground.
  - apply Rleb_true in Hground. split; [|discriminate].
    intros _. split.
    + now apply blendHeight_lower.
    + apply blendHeight_upper; [lra | assumption].
  - apply Rleb_false in Hground. split; [discriminate|].
    intros _. exact Hground.
Qed.

Lemma grounded_height_range_witness :
  (isGrounded (useFrame staticCollisionBounds (1 / 8) noRotation
                        (run staticCollisionBounds [SetLocked true])) = true ->
   DUCK_HEIGHT
   <= y (camera_position
           (useFrame staticCollisionBounds (1 / 8) noRotation
                     (run staticCollisionBounds [SetLocked true])))
   <= GROUND_HEIGHT)
  /\ (isGrounded (useFrame staticCollisionBounds (1 / 8) noRotation
                           (run staticCollisionBounds [SetLocked true]))
      = false ->
      GROUND_HEIGHT
      < y (camera_position
             (useFrame staticCollisionBounds (1 / 8) noRotation
                       (run staticCollisionBounds [SetLocked true])))).
Proof.
  apply (grounded_height_range staticCollisionBounds [SetLocked true]
           (1 / 8) noRotation).
  - constructor; [exact I | constructor].
  - lra.
  - reflexivity.
Defined.

(** C7 as stated fails for a long frame: from the initial state with the
    pointer locked, one tick of 1 second integrates the height to -18, the
    player is Grounded, and standing up raises the camera by 15 only: the
    tick ends Grounded at height -3, below DUCK_HEIGHT. *)
Lemma grounded_height_below_duck :
  let s := run staticCollisionBounds [SetLocked true] in
  let s' := useFrame staticCollisionBounds 1 noRotation s in
  isLocked s = true
  /\ isGrounded s' = true
  /\ y (camera_position s') = -3
  /\ ~ (DUCK_HEIGHT <= y (camera_position s') <= GROUND_HEIGHT).
Proof.
  intros s s'.
  assert (Hs : s = standing) by reflexivity.
  assert (Hl : isLocked s = true) by reflexivity.
  destruct (useFrame_vertical staticCollisionBounds 1 noRotation s Hl)
    as (_ & Hg' & Hy').
  fold s' in Hg', Hy'.
  assert (Hint : integratedY 1 s = -18).
  { rewrite Hs. unfold integratedY, integratedVelocity, GRAVITY, standing.
    cbn [velocityY camera_position y]. lra. }
  assert (Hg : isGrounded s' = true).
  { rewrite Hg'. unfold isOnGround. rewrite Hint.
    apply Rleb_true. unfold GROUND_HEIGHT. lra. }
  assert (Hy : y (camera_position s') = -3).
  { rewrite Hy'. unfold groundHeight, isOnGround. rewrite Hint.
    rewrite (proj2 (Rleb_true (-18) GROUND_HEIGHT))
      by (unfold GROUND_HEIGHT; lra).
    rewrite Hs. cbn [standing moveState duck].
    rewrite blendHeight_stand by (unfold GROUND_HEIGHT; lra).
    unfold Rmin, GROUND_HEIGHT. destruct (Rle_dec _ _); lra. }
  repeat split; try assumption.
  rewrite Hy. unfold DUCK_HEIGHT. lra.
Qed.

End Vertical.

(* ================================================================== *)
(** * The collision probe of the horizontal move *)

Section CollisionProbe.

Import Three Player PlayerSpec.

Lemma useFrame_horizontal (bounds : list CollisionBounds) (delta : R)
    (applyEuler : Vector3 -> Vector3) (s : State) :
  isLocked s = true ->
  let s' := useFrame bounds delta applyEuler s in
  (x (camera_position s'), z (camera_position s'))
  = horizontalMove bounds (newX delta applyEuler s)
                   (newZ delta applyEuler s) s
  /\ moveState s' = moveState s.
Proof.
  intros Hl s'. subst s'. rewrite useFrame_locked by assumption.
  cbn. split; [|reflexivity].
  now destruct (horizontalMove _ _ _ _).
Qed.



(** A tick that stays off the wall and changes the horizontal position has
    committed an accepted candidate. *)
Lemma moved_then_accepted (bounds : list CollisionBounds) (delta : R)
    (applyEuler : Vector3 -> Vector3) (s : State) :
  isLocked s = true ->
  distanceFromCenter (newX delta applyEuler s) (newZ delta applyEuler s)
  < WALL_RADIUS ->
  let s' := useFrame bounds delta applyEuler s in
  (x (camera_position s'), z (camera_position s'))
  <> (x (camera_position s), z (camera_position s)) ->
  moveAccepted bounds (newX delta applyEuler s) (newZ delta applyEuler s) s
  = true.
Proof.
  intros Hl Hw s' Hmoved.
  destruct (useFrame_horizontal bounds delta applyEuler s Hl) as [Hxz _].
  fold s' in Hxz. rewrite horizontalMove_inside in Hxz by assumption.
  unfold moveAccepted, Rgeb. rewrite (proj2 (Rleb_false _ _) Hw).
  destruct (checkCollision _ _ _); [contradiction | reflexivity].
Qed.

(** C10.  In an active tick the committed x and z are decided by the wall
    test and by one collision test at the candidate's x and z whose
    vertical coordinate and player height are both DUCK_HEIGHT when duck is
    held and GROUND_HEIGHT otherwise; the camera's height, vertical velocity
    and grounded flag have no influence on the committed x and z, so an
    Airborne player is tested as if standing (or ducking). *)
Theorem collision_probe_height (bounds : list CollisionBounds) (delta : R)
    (applyEuler : Vector3 -> Vector3) (s : State) :
  isLocked s = true ->
  let nx := newX delta applyEuler s in
  let nz := newZ delta applyEuler s in
  let h := if duck (moveState s) then DUCK_HEIGHT else GROUND_HEIGHT in
  let s' := useFrame bounds delta applyEuler s in
  (x (camera_position s'), z (camera_position s'))
  = (if Rgeb (distanceFromCenter nx nz) WALL_RADIUS
     then (cos (atan2 nz nx) * WALL_RADIUS, sin (atan2 nz nx) * WALL_RADIUS)
     else if checkCollision bounds (vec3 nx h nz) h
          then (x (camera_position s), z (camera_position s))
          else (nx, nz))
  /\ forall (cy v : R) (g : bool),
       let t' := useFrame bounds delta applyEuler (withVertical cy v g s) in
       x (camera_position t') = x (camera_position s')
       /\ z (camera_position t') = z (camera_position s').
Proof.
  intros Hl nx nz h s'.
  destruct (useFrame_horizontal bounds delta applyEuler s Hl) as [Hxz _].
  fold s' in Hxz. split.
  - rewrite Hxz. unfold horizontalMove. fold nx nz.
    unfold currentHeight. fold h.
    destruct (Rgeb _ _); [reflexivity|].
    now destruct (checkCollision _ _ _).
  - intros cy v g t'.
    assert (Hl' : isLocked (withVertical cy v g s) = true) by exact Hl.
    destruct (useFrame_horizontal bounds delta applyEuler
                (withVertical cy v g s) Hl') as [Hxz' _].
    fold t' in Hxz'.
    assert (Heq : (x (camera_position t'), z (camera_position t'))
                  = (x (camera_position s'), z (camera_position s'))).
    { rewrite Hxz, Hxz'. reflexivity. }
    injection Heq as Hx Hz. auto.
Qed.

Lemma collision_probe_height_witness :
  x (camera_position
       (useFrame staticCollisionBounds (1 / 8) noRotation
                 (withVertical 3.5 (-1) false standing)))
  = x (camera_position
         (useFrame staticCollisionBounds (1 / 8) noRotation standing)).
Proof.
  assert (Hl : isLocked standing = true) by reflexivity.
  destruct (collision_probe_height staticCollisionBounds (1 / 8) noRotation
              standing Hl) as [_ Hsame].
  apply Hsame.
Defined.


(** Walking forward for an eighth of a second without rotation moves the
    candidate by 1.25 along negative z. *)
Lemma walking_candidate :
  newX (1 / 8) noRotation walking = 0
  /\ newZ (1 / 8) noRotation walking = 35 / 4.
Proof.
  unfold newX, newZ, direction, noRotation, walking.
  cbn [moveState slowWalk forward backward left right camera_position x z].
  unfold normalize, divideScalar, multiplyScalar, subVectors, length, Number.
  cbn [x y z].
  replace ((0 - (0 - 0)) * (0 - (0 - 0)) + (0 - 0) * (0 - 0)
           + (0 - 1 - 0) * (0 - 1 - 0)) with 1 by lra.
  rewrite sqrt_1.
  rewrite (proj2 (Reqb_false 1 0)) by lra.
  unfold SPEED. split; lra.
Qed.



(** A candidate inside a box is rejected: with a box of side 2 centred on
    the candidate of [walking_candidate], the tick leaves x and z as they
    were. *)
Lemma walking_blocked_by_box :
  let bounds := [mkBounds box (vec3 0 2 (35 / 4)) (vec3 2 2 2)] in
  let s' := useFrame bounds (1 / 8) noRotation walking in
  x (camera_position s') = 0 /\ z (camera_position s') = 10.
Proof.
  intros bounds s'.
  assert (Hl : isLocked walking = true) by reflexivity.
  destruct (useFrame_horizontal bounds (1 / 8) noRotation walking Hl)
    as [Hxz _].
  fold s' in Hxz.
  destruct walking_candidate as [Hnx Hnz]. rewrite Hnx, Hnz in Hxz.
  rewrite horizontalMove_inside in Hxz.
  - assert (Hhit : checkCollision bounds
                     (vec3 0 (currentHeight walking) (35 / 4))
                     (currentHeight walking) = true).
    { unfold checkCollision, bounds, currentHeight, walking.
      cbn [moveState duck checkLoop boundHit type position size x y z].
      unfold GROUND_HEIGHT, PLAYER_RADIUS.
      assert (Hbox : Rltb ((0 - Rmax (0 - 2 / 2) (Rmin 0 (0 + 2 / 2)))
                           * (0 - Rmax (0 - 2 / 2) (Rmin 0 (0 + 2 / 2)))
                           + (2 - Rmax (2 - 2 / 2) (Rmin 2 (2 + 2 / 2)))
                             * (2 - Rmax (2 - 2 / 2) (Rmin 2 (2 + 2 / 2)))
                           + (35 / 4 - Rmax (35 / 4 - 2 / 2)
                                            (Rmin (35 / 4) (35 / 4 + 2 / 2)))
                             * (35 / 4 - Rmax (35 / 4 - 2 / 2)
                                              (Rmin (35 / 4)
                                                    (35 / 4 + 2 / 2))))
                          (0.5 * 0.5) = true).
      { apply Rltb_true. unfold Rmax, Rmin.
        repeat destruct (Rle_dec _ _); nra. }
      now rewrite Hbox. }
    rewrite Hhit in Hxz. cbn [walking camera_position x z] in Hxz.
    injection Hxz as Hx Hz. auto.
  - unfold distanceFromCenter, WALL_RADIUS.
    apply Rle_lt_trans with (35 / 4); [|lra].
    apply sqrt_le_bound; lra.
Qed.

End CollisionProbe.

(* ================================================================== *)
(** * Further properties of the collision test *)

Section CollisionTest.

Import Three Player PlayerSpec Props.

Lemma checkLoop_existsb (pos : Vector3) (pb pt : R)
    (bounds : list CollisionBounds) :
  checkLoop pos pb pt bounds = existsb (boundHit pos pb pt) bounds.
Proof.
  induction bounds as [|b bounds IH]; cbn [checkLoop existsb];
    [reflexivity|].
  rewrite IH. now destruct (boundHit pos pb pt b).
Qed.

Lemma checkCollision_existsb (bounds : list CollisionBounds) (pos : Vector3)
    (playerHeight : R) :
  checkCollision bounds pos playerHeight
  = existsb (boundHit pos (y pos - playerHeight / 2)
                      (y pos + playerHeight / 2)) bounds.
Proof. unfold checkCollision. apply checkLoop_existsb. Qed.

Lemma existsb_permutation {A : Type} (f : A -> bool) (l l' : list A) :
  Permutation l l' -> existsb f l = existsb f l'.
Proof.
  induction 1 as [|a l l' _ IH|a b l|l1 l2 l3 _ IH1 _ IH2];
    cbn [existsb].
  - reflexivity.
  - now rewrite IH.
  - now destruct (f a), (f b).
  - now rewrite IH1.
Qed.

Lemma checkCollision_app (b1 b2 : list CollisionBounds) (pos : Vector3)
    (playerHeight : R) :
  checkCollision (b1 ++ b2) pos playerHeight
  = checkCollision b1 pos playerHeight || checkCollision b2 pos playerHeight.
Proof. rewrite !checkCollision_existsb. apply existsb_app. Qed.

Lemma horizontalMove_ext (b1 b2 : list CollisionBounds) (nx nz : R)
    (s : State) :
  checkCollision b1 (vec3 nx (currentHeight s) nz) (currentHeight s)
  = checkCollision b2 (vec3 nx (currentHeight s) nz) (currentHeight s) ->
  horizontalMove b1 nx nz s = horizontalMove b2 nx nz s.
Proof. intros H. unfold horizontalMove. now rewrite H. Qed.

Lemma useFrame_ext (b1 b2 : list CollisionBounds) (delta : R)
    (applyEuler : Vector3 -> Vector3) (s : State) :
  (forall pos h, y pos = h -> h = currentHeight s ->
                 checkCollision b1 pos h = checkCollision b2 pos h) ->
  useFrame b1 delta applyEuler s = useFrame b2 delta applyEuler s.
Proof.
  intros H. unfold useFrame.
  destruct (isLocked s); cbn [negb]; [|reflexivity].
  now rewrite (horizontalMove_ext b1 b2) by (apply H; reflexivity).
Qed.

(** X1.  The collision test does not depend on the order of the index: two
    indexes that are permutations of each other give the same answer for
    every probe, hence the same tick. *)
Theorem collision_order_irrelevant (b1 b2 : list CollisionBounds) :
  Permutation b1 b2 ->
  (forall (pos : Vector3) (playerHeight : R),
     checkCollision b1 pos playerHeight = checkCollision b2 pos playerHeight)
  /\ (forall (delta : R) (applyEuler : Vector3 -> Vector3) (s : State),
        useFrame b1 delta applyEuler s = useFrame b2 delta applyEuler s).
Proof.
  intros Hperm.
  assert (Hcc : forall pos h, checkCollision b1 pos h = checkCollision b2 pos h).
  { intros pos h. rewrite !checkCollision_existsb.
    now apply existsb_permutation. }
  split; [exact Hcc|].
  intros delta applyEuler s. apply useFrame_ext. intros pos h _ _. apply Hcc.
Qed.

Lemma collision_order_irrelevant_witness :
  checkCollision (columnShapes (8, 0, 5) ++ statueShapes) (vec3 0 2 10)
                 GROUND_HEIGHT
  = checkCollision (statueShapes ++ columnShapes (8, 0, 5)) (vec3 0 2 10)
                   GROUND_HEIGHT.
Proof.
  apply (collision_order_irrelevant (columnShapes (8, 0, 5) ++ statueShapes)
           (statueShapes ++ columnShapes (8, 0, 5))).
  apply Permutation_app_comm.
Defined.

(** X2.  The test is the disjunction over the shapes: a probe is blocked by
    a concatenated index exactly when one of the parts blocks it, the empty
    index blocks nothing, and a probe blocked by an index stays blocked by
    every index that contains its shapes. *)
Theorem collision_is_disjunction (b1 b2 : list CollisionBounds)
    (pos : Vector3) (playerHeight : R) :
  checkCollision [] pos playerHeight = false
  /\ checkCollision (b1 ++ b2) pos playerHeight
     = checkCollision b1 pos playerHeight || checkCollision b2 pos playerHeight
  /\ (incl b1 b2 -> checkCollision b1 pos playerHeight = true ->
      checkCollision b2 pos playerHeight = true).
Proof.
  split; [reflexivity|]. split; [apply checkCollision_app|].
  intros Hincl. rewrite !checkCollision_existsb, !existsb_exists.
  intros [b [Hin Hhit]]. exists b. split; [now apply Hincl | exact Hhit].
Qed.

Lemma abs_le_sqrt3 (dx dy dz : R) :
  dy <= sqrt (dx * dx + dy * dy + dz * dz)
  /\ - dy <= sqrt (dx * dx + dy * dy + dz * dz).
Proof.
  assert (Hsum : 0 <= dx * dx + dy * dy + dz * dz) by nra.
  pose proof (sqrt_pos (dx * dx + dy * dy + dz * dz)) as Hpos.
  pose proof (sqrt_sqrt _ Hsum) as Hsq.
  split; nra.
Qed.

(** X3.  For a player height of at least twice PLAYER_RADIUS (both duck
    states), the vertical-overlap test of a sphere never rejects: a sphere
    blocks exactly when the probe is closer to its centre than PLAYER_RADIUS
    plus the radius. *)
Theorem sphere_hit_is_distance (centre sz : Vector3) (pos : Vector3)
    (playerHeight : R) :
  2 * PLAYER_RADIUS <= playerHeight ->
  checkCollision [mkBounds sphere centre sz] pos playerHeight
  = Rltb (distanceTo pos centre) (PLAYER_RADIUS + x sz).
Proof.
  intros Hh. unfold checkCollision.
  cbn [checkLoop boundHit type position size].
  destruct (Rltb (distanceTo pos centre) (PLAYER_RADIUS + x sz)) eqn:Hd;
    [|reflexivity].
  apply Rltb_true in Hd. unfold distanceTo in Hd.
  destruct (abs_le_sqrt3 (x pos - x centre) (y pos - y centre)
              (z pos - z centre)) as [Hup Hdown].
  unfold PLAYER_RADIUS in *.
  assert (H1 : Rltb (y pos - playerHeight / 2) (y centre + x sz) = true)
    by (apply Rltb_true; lra).
  assert (H2 : Rgtb (y pos + playerHeight / 2) (y centre - x sz) = true)
    by (apply Rltb_true; lra).
  now rewrite H1, H2.
Qed.

Lemma sphere_hit_is_distance_witness :
  checkCollision [mkBounds sphere (vec3 30 20 (-30)) (vec3 3 0 0)]
                 (vec3 0 2 10) GROUND_HEIGHT
  = Rltb (distanceTo (vec3 0 2 10) (vec3 30 20 (-30))) (PLAYER_RADIUS + 3).
Proof.
  apply (sphere_hit_is_distance (vec3 30 20 (-30)) (vec3 3 0 0) (vec3 0 2 10)
           GROUND_HEIGHT).
  unfold PLAYER_RADIUS, GROUND_HEIGHT. lra.
Defined.

(** ** Boxes *)

Lemma Rabs_le_between (v b : R) : Rabs v <= b -> - b <= v <= b.
Proof. unfold Rabs. destruct (Rcase_abs v); lra. Qed.

(** The distance from [p] to the interval [[lo, hi]] along one axis, as the
    box branch computes it. *)
Lemma axis_inside (lo hi p : R) :
  lo <= p <= hi -> p - Rmax lo (Rmin p hi) = 0.
Proof.
  intros [Hlo Hhi]. unfold Rmax, Rmin.
  repeat destruct (Rle_dec _ _); lra.
Qed.

Lemma axis_outside (lo hi p r : R) :
  lo <= hi -> 0 <= r -> p <= lo - r \/ hi + r <= p ->
  r * r <= (p - Rmax lo (Rmin p hi)) * (p - Rmax lo (Rmin p hi)).
Proof.
  intros Hbox Hr Hout. unfold Rmax, Rmin.
  repeat destruct (Rle_dec _ _); destruct Hout; nra.
Qed.

Lemma box_inside_hit (centre sz pos : Vector3) (pb pt : R) :
  Rabs (x pos - x centre) <= x sz / 2 ->
  Rabs (y pos - y centre) <= y sz / 2 ->
  Rabs (z pos - z centre) <= z sz / 2 ->
  boundHit pos pb pt (mkBounds box centre sz) = true.
Proof.
  intros Hx Hy Hz. cbn [boundHit type position size].
  apply Rabs_le_between in Hx, Hy, Hz.
  rewrite !axis_inside by lra.
  apply Rltb_true. unfold PLAYER_RADIUS. lra.
Qed.

Lemma box_outside_free (centre sz pos : Vector3) (pb pt : R) :
  0 <= x sz -> 0 <= y sz -> 0 <= z sz ->
  x sz / 2 + PLAYER_RADIUS <= Rabs (x pos - x centre)
  \/ y sz / 2 + PLAYER_RADIUS <= Rabs (y pos - y centre)
  \/ z sz / 2 + PLAYER_RADIUS <= Rabs (z pos - z centre) ->
  boundHit pos pb pt (mkBounds box centre sz) = false.
Proof.
  intros Hsx Hsy Hsz Hout. cbn [boundHit type position size].
  apply Rltb_false.
  set (dx := x pos - Rmax (x centre - x sz / 2) (Rmin (x pos) (x centre + x sz / 2))).
  set (dy := y pos - Rmax (y centre - y sz / 2) (Rmin (y pos) (y centre + y sz / 2))).
  set (dz := z pos - Rmax (z centre - z sz / 2) (Rmin (z pos) (z centre + z sz / 2))).
  assert (Hr : 0 <= PLAYER_RADIUS) by (unfold PLAYER_RADIUS; lra).
  assert (Hdx : 0 <= dx * dx) by nra.
  assert (Hdy : 0 <= dy * dy) by nra.
  assert (Hdz : 0 <= dz * dz) by nra.
  destruct Hout as [Hout | [Hout | Hout]].
  - assert (H : PLAYER_RADIUS * PLAYER_RADIUS <= dx * dx).
    { apply axis_outside; [lra | exact Hr |].
      revert Hout. unfold Rabs. destruct (Rcase_abs _); intros; lra. }
    lra.
  - assert (H : PLAYER_RADIUS * PLAYER_RADIUS <= dy * dy).
    { apply axis_outside; [lra | exact Hr |].
      revert Hout. unfold Rabs. destruct (Rcase_abs _); intros; lra. }
    lra.
  - assert (H : PLAYER_RADIUS * PLAYER_RADIUS <= dz * dz).
    { apply axis_outside; [lra | exact Hr |].
      revert Hout. unfold Rabs. destruct (Rcase_abs _); intros; lra. }
    lra.
Qed.

(** The clamped coordinate lies in the interval and is its point nearest
    to [p]. *)
Lemma axis_closest_in (lo hi p : R) :
  lo <= hi -> lo <= Rmax lo (Rmin p hi) <= hi.
Proof.
  intros Hbox. unfold Rmax, Rmin. repeat destruct (Rle_dec _ _); lra.
Qed.

Lemma axis_closest_min (lo hi p q : R) :
  lo <= q <= hi ->
  (p - Rmax lo (Rmin p hi)) * (p - Rmax lo (Rmin p hi))
  <= (p - q) * (p - q).
Proof.
  intros [Hlo Hhi]. unfold Rmax, Rmin.
  repeat destruct (Rle_dec _ _);
    pose proof (Rle_0_sqr (p - q)) as Hsq; unfold Rsqr in Hsq;
    first
      [ lra
      | assert (0 <= (hi - q) * (p - hi)) by (apply Rmult_le_pos; lra); nra
      | assert (0 <= (q - lo) * (lo - p)) by (apply Rmult_le_pos; lra); nra ].
Qed.

Lemma Rabs_le_of_between (v b : R) : - b <= v <= b -> Rabs v <= b.
Proof. unfold Rabs. destruct (Rcase_abs v); lra. Qed.

(** X4.  A box of non-negative size treats the probe as the open ball of
    radius PLAYER_RADIUS around the probe point: the box blocks exactly when
    some point of the box is closer to the probe point than PLAYER_RADIUS;
    the player height plays no part. *)
Theorem box_hit_geometry (centre sz pos : Vector3) (playerHeight : R) :
  0 <= x sz -> 0 <= y sz -> 0 <= z sz ->
  (checkCollision [mkBounds box centre sz] pos playerHeight = true <->
   exists q : Vector3,
     Rabs (x q - x centre) <= x sz / 2
     /\ Rabs (y q - y centre) <= y sz / 2
     /\ Rabs (z q - z centre) <= z sz / 2
     /\ (x pos - x q) * (x pos - x q) + (y pos - y q) * (y pos - y q)
        + (z pos - z q) * (z pos - z q)
        < PLAYER_RADIUS * PLAYER_RADIUS)
  /\ (forall playerHeight' : R,
        checkCollision [mkBounds box centre sz] pos playerHeight'
        = checkCollision [mkBounds box centre sz] pos playerHeight).
Proof.
  intros Hsx Hsy Hsz. split; [|reflexivity].
  unfold checkCollision. cbn [checkLoop boundHit type position size].
  set (qx := Rmax (x centre - x sz / 2) (Rmin (x pos) (x centre + x sz / 2))).
  set (qy := Rmax (y centre - y sz / 2) (Rmin (y pos) (y centre + y sz / 2))).
  set (qz := Rmax (z centre - z sz / 2) (Rmin (z pos) (z centre + z sz / 2))).
  destruct (Rltb _ _) eqn:Hhit.
  - split; [intros _|reflexivity].
    apply Rltb_true in Hhit.
    exists (vec3 qx qy qz). cbn [x y z].
    pose proof (axis_closest_in (x centre - x sz / 2) (x centre + x sz / 2)
                  (x pos)) as Hx.
    pose proof (axis_closest_in (y centre - y sz / 2) (y centre + y sz / 2)
                  (y pos)) as Hy.
    pose proof (axis_closest_in (z centre - z sz / 2) (z centre + z sz / 2)
                  (z pos)) as Hz.
    fold qx in Hx. fold qy in Hy. fold qz in Hz.
    split; [apply Rabs_le_of_between; lra|].
    split; [apply Rabs_le_of_between; lra|].
    split; [apply Rabs_le_of_between; lra|].
    exact Hhit.
  - split; [discriminate|].
    intros (q & Hx & Hy & Hz & Hnear). exfalso.
    apply Rltb_false in Hhit.
    apply Rabs_le_between in Hx, Hy, Hz.
    pose proof (axis_closest_min (x centre - x sz / 2) (x centre + x sz / 2)
                  (x pos) (x q)) as Mx.
    pose proof (axis_closest_min (y centre - y sz / 2) (y centre + y sz / 2)
                  (y pos) (y q)) as My.
    pose proof (axis_closest_min (z centre - z sz / 2) (z centre + z sz / 2)
                  (z pos) (z q)) as Mz.
    fold qx in Mx. fold qy in My. fold qz in Mz.
    assert (Mx' := Mx ltac:(lra)).
    assert (My' := My ltac:(lra)).
    assert (Mz' := Mz ltac:(lra)).
    lra.
Qed.

(** A probe point at the centre of a box of side 2 is blocked. *)
Lemma box_hit_geometry_witness :
  checkCollision [mkBounds box (vec3 0 2 10) (vec3 2 2 2)] (vec3 0 2 10)
                 GROUND_HEIGHT
  = true.
Proof.
  destruct (box_hit_geometry (vec3 0 2 10) (vec3 2 2 2) (vec3 0 2 10)
              GROUND_HEIGHT) as [[_ Hhit] _];
    cbn [x y z]; try lra.
  apply Hhit. exists (vec3 0 2 10). cbn [x y z]. unfold PLAYER_RADIUS.
  repeat split; try (unfold Rabs; destruct (Rcase_abs _); lra); lra.
Defined.

Lemma collision_is_disjunction_witness :
  checkCollision
    ([mkBounds box (vec3 0 2 10) (vec3 2 2 2)] ++ statueShapes)
    (vec3 0 2 10) GROUND_HEIGHT
  = true.
Proof.
  destruct (collision_is_disjunction
              [mkBounds box (vec3 0 2 10) (vec3 2 2 2)]
              ([mkBounds box (vec3 0 2 10) (vec3 2 2 2)] ++ statueShapes)
              (vec3 0 2 10) GROUND_HEIGHT) as (_ & _ & Hincl).
  apply Hincl.
  - apply incl_appl, incl_refl.
  - unfold checkCollision. cbn [checkLoop].
    rewrite box_inside_hit; [reflexivity | | |];
      cbn [x y z]; unfold Rabs; destruct (Rcase_abs _); lra.
Defined.

(** ** The statue *)

Lemma statue_free (pos : Vector3) (playerHeight : R) :
  y pos + playerHeight / 2 <= 6 ->
  checkCollision statueShapes pos playerHeight = false.
Proof.
  intros Hlow. unfold checkCollision, statueShapes.
  cbn [checkLoop boundHit type position size x y z].
  assert (H6 : Rgtb (y pos + playerHeight / 2) (0 + 12 - 12 / 2) = false)
    by (apply Rltb_false; lra).
  assert (H7 : Rgtb (y pos + playerHeight / 2) (0 + 12 - 10 / 2) = false)
    by (apply Rltb_false; lra).
  assert (H17 : Rgtb (y pos + playerHeight / 2) (0 + 20 - 3) = false)
    by (apply Rltb_false; lra).
  rewrite H6, H7, H17, !andb_false_r.
  repeat match goal with
         | |- context [if ?b then false else false] =>
             replace (if b then false else false) with false
               by now destruct b
         end.
  reflexivity.
Qed.

(** X5.  The statue never blocks the player: its four shapes start at
    height 6 or above, so for every probe whose top is at most 6 the index
    answers as the index without the statue's shapes does, and every tick
    runs as it would without them. *)
Theorem statue_never_blocks (objs : list ScatterData.ScatteredObject) :
  let without :=
    flat_map columnShapes columnPositions
    ++ flat_map (fun o => pushScattered o []) objs in
  (forall (pos : Vector3) (playerHeight : R),
     y pos + playerHeight / 2 <= 6 ->
     checkCollision (generateCollisionBounds objs) pos playerHeight
     = checkCollision without pos playerHeight)
  /\ (forall (delta : R) (applyEuler : Vector3 -> Vector3) (s : State),
        useFrame (generateCollisionBounds objs) delta applyEuler s
        = useFrame without delta applyEuler s).
Proof.
  intros without.
  assert (Hcc : forall pos h, y pos + h / 2 <= 6 ->
                  checkCollision (generateCollisionBounds objs) pos h
                  = checkCollision without pos h).
  { intros pos h Hlow. subst without.
    rewrite generateCollisionBounds_shape, !checkCollision_app.
    rewrite statue_free by assumption. reflexivity. }
  split; [exact Hcc|].
  intros delta applyEuler s. apply useFrame_ext.
  intros pos h Hy Hh. apply Hcc. rewrite Hy, Hh.
  unfold currentHeight, DUCK_HEIGHT, GROUND_HEIGHT.
  destruct (duck (moveState s)); lra.
Qed.

Lemma statue_never_blocks_witness :
  checkCollision (generateCollisionBounds []) (vec3 30 2 (-30)) GROUND_HEIGHT
  = checkCollision
      (flat_map columnShapes columnPositions
       ++ flat_map (fun o => pushScattered o []) [])
      (vec3 30 2 (-30)) GROUND_HEIGHT.
Proof.
  destruct (statue_never_blocks []) as [Hcc _].
  apply Hcc. cbn [y]. unfold GROUND_HEIGHT. lra.
Defined.

End CollisionTest.

(* ================================================================== *)
(** * Further properties of the keyboard handlers *)

Section KeyboardProps.

Import Three Player PlayerSpec Props.

(** The names [KEYS] maps to. *)
Lemma KEYS_names (c name : string) :
  KEYS c = Some name ->
  (c = "Space"%string /\ name = "jump"%string)
  \/ (c <> "Space"%string
      /\ (name = "forward"%string \/ name = "backward"%string
          \/ name = "left"%string \/ name = "right"%string)).
Proof.
  unfold KEYS.
  repeat match goal with
         | |- context [String.eqb c ?k] =>
             destruct (String.eqb_spec c k) as [->|]
         end; intros H; inversion H; subst;
    try (right; split; [discriminate | tauto]).
  now left.
Qed.

Lemma handleKeyDown_locked (e : KeyboardEvent) (s : State) :
  isLocked s = true ->
  handleKeyDown e s
  = match KEYS (code e) with
    | Some name =>
        if (code e =? "Space")%string then
          if isGrounded s && Reqb (velocityY s) 0
          then mkState true (downFlags e (moveState s)) JUMP_FORCE false
                       (camera_position s) (scene_fog s)
          else withMoveState (downFlags e (moveState s)) s
        else withMoveState (setFlag name true (downFlags e (moveState s))) s
    | None => withMoveState (downFlags e (moveState s)) s
    end.
Proof.
  intros Hl. unfold handleKeyDown, downFlags. rewrite Hl. cbn [negb].
  destruct s as [l m v g c f]. cbn in Hl. subst l. unfold withMoveState.
  destruct (ctrlKey e || isControl (code e)),
    (shiftKey e || isShift (code e));
    cbn [moveState velocityY isGrounded camera_position scene_fog isLocked];
    destruct (KEYS (code e)); try reflexivity;
    destruct (code e =? "Space")%string; try reflexivity;
    destruct (g && Reqb v 0); reflexivity.
Qed.

Lemma downFlags_idem (e : KeyboardEvent) (m : MoveState) :
  downFlags e (downFlags e m) = downFlags e m.
Proof.
  unfold downFlags, setDuck, setSlowWalk.
  destruct (ctrlKey e || isControl (code e)),
    (shiftKey e || isShift (code e)); reflexivity.
Qed.

Lemma setFlag_true_downFlags (e : KeyboardEvent) (name : string)
    (m : MoveState) :
  downFlags e (setFlag name true (downFlags e m))
  = setFlag name true (downFlags e m).
Proof.
  unfold downFlags, setDuck, setSlowWalk, setFlag.
  destruct (ctrlKey e || isControl (code e)),
    (shiftKey e || isShift (code e));
    repeat match goal with
           | |- context [String.eqb name ?k] => destruct (String.eqb name k)
           end; reflexivity.
Qed.

Lemma setFlag_idem (name : string) (v : bool) (m : MoveState) :
  setFlag name v (setFlag name v m) = setFlag name v m.
Proof.
  unfold setFlag.
  repeat match goal with
         | |- context [String.eqb name ?k] => destruct (String.eqb name k)
         end; reflexivity.
Qed.

(** X6.  A key-down handled twice in a row is a key-down handled once: the
    key repeat of a held key changes nothing, and a second Space cannot
    jump again. *)
Theorem keydown_repeat_harmless (e : KeyboardEvent) (s : State) :
  handleKeyDown e (handleKeyDown e s) = handleKeyDown e s.
Proof.
  destruct (isLocked s) eqn:Hl.
  - assert (Hl' : isLocked (handleKeyDown e s) = true).
    { destruct (handleKeyDown_frame e s) as (_ & -> & _). exact Hl. }
    rewrite (handleKeyDown_locked e _ Hl').
    rewrite (handleKeyDown_locked e s Hl).
    destruct (KEYS (code e)) as [name|].
    + destruct (code e =? "Space")%string.
      * destruct (isGrounded s && Reqb (velocityY s) 0) eqn:Hc.
        -- cbn [isGrounded andb moveState withMoveState isLocked velocityY
                camera_position scene_fog].
           now rewrite downFlags_idem.
        -- unfold withMoveState.
           cbn [isGrounded moveState isLocked velocityY camera_position
                scene_fog].
           now rewrite Hc, downFlags_idem.
      * unfold withMoveState.
        cbn [isGrounded moveState isLocked velocityY camera_position
             scene_fog].
        now rewrite setFlag_true_downFlags, setFlag_idem.
    + unfold withMoveState.
      cbn [isGrounded moveState isLocked velocityY camera_position scene_fog].
      now rewrite downFlags_idem.
  - rewrite (handleKeyDown_unlocked e s Hl).
    exact (handleKeyDown_unlocked e s Hl).
Qed.

Lemma handleKeyUp_flags (e : KeyboardEvent) (s : State) :
  handleKeyUp e s = withMoveState (upFlags e (moveState s)) s.
Proof.
  unfold handleKeyUp, upFlags, withMoveState. destruct s as [l m v g c f].
  cbn [moveState velocityY isGrounded camera_position scene_fog isLocked].
  destruct (isControl (code e)), (isShift (code e)), (negb (ctrlKey e)),
    (negb (shiftKey e));
    cbn [moveState velocityY isGrounded camera_position scene_fog isLocked];
    destruct (KEYS (code e)); try reflexivity;
    destruct (negb (code e =? "Space")%string); reflexivity.
Qed.

(** The eight movement key codes. *)
Lemma KEYS_movement (c name : string) :
  KEYS c = Some name -> c <> "Space"%string ->
  (name = "forward"%string /\ (c = "KeyW" \/ c = "ArrowUp")%string)
  \/ (name = "backward"%string /\ (c = "KeyS" \/ c = "ArrowDown")%string)
  \/ (name = "left"%string /\ (c = "KeyA" \/ c = "ArrowLeft")%string)
  \/ (name = "right"%string /\ (c = "KeyD" \/ c = "ArrowRight")%string).
Proof.
  unfold KEYS.
  repeat match goal with
         | |- context [String.eqb c ?k] =>
             destruct (String.eqb_spec c k) as [->|]
         end; intros H Hsp; inversion H; subst; tauto.
Qed.

Ltac movement_cases H :=
  destruct H as [[-> [-> | ->]] | [[-> [-> | ->]] | [[-> [-> | ->]]
                                                    | [-> [-> | ->]]]]].

(** X7.  For a movement key (W, A, S, D or an arrow): a key-down while the
    pointer is locked sets the flag [KEYS] names, a key-up clears it, and,
    while the pointer is locked, a press followed by the release restores
    the state if and only if the flag was clear and the duck and slow-walk
    flags agree with the event's Ctrl and Shift bits. *)
Theorem press_release (e : KeyboardEvent) (name : string) (s : State) :
  KEYS (code e) = Some name ->
  code e <> "Space"%string ->
  (isLocked s = true ->
   getFlag name (moveState (handleKeyDown e s)) = true)
  /\ getFlag name (moveState (handleKeyUp e s)) = false
  /\ (isLocked s = true ->
      (handleKeyUp e (handleKeyDown e s) = s <->
       getFlag name (moveState s) = false
       /\ duck (moveState s) = ctrlKey e
       /\ slowWalk (moveState s) = shiftKey e)).
Proof.
  intros Hkeys Hsp.
  pose proof (KEYS_movement _ _ Hkeys Hsp) as Hcases.
  destruct e as [c ctrl shift]. cbn [code] in *.
  destruct s as [l [f b le r j d sw] v g cam fog].
  split; [|split].
  - cbn [isLocked]. intros ->.
    rewrite handleKeyDown_locked by reflexivity.
    cbn [code]. rewrite Hkeys.
    rewrite (proj2 (String.eqb_neq c "Space") Hsp).
    unfold withMoveState. cbn [moveState].
    unfold downFlags. cbn [ctrlKey shiftKey code].
    movement_cases Hcases; destruct ctrl, shift; reflexivity.
  - rewrite handleKeyUp_flags. unfold withMoveState. cbn [moveState].
    unfold upFlags. cbn [ctrlKey shiftKey code].
    movement_cases Hcases; destruct ctrl, shift; reflexivity.
  - cbn [isLocked moveState duck slowWalk ctrlKey shiftKey]. intros ->.
    rewrite handleKeyDown_locked by reflexivity.
    cbn [code]. rewrite Hkeys.
    rewrite (proj2 (String.eqb_neq c "Space") Hsp).
    rewrite handleKeyUp_flags.
    unfold withMoveState.
    cbn [moveState isLocked velocityY isGrounded camera_position scene_fog].
    unfold upFlags, downFlags. cbn [ctrlKey shiftKey code].
    split.
    + intros Hround. apply (f_equal moveState) in Hround.
      cbn [moveState] in Hround.
      movement_cases Hcases; destruct ctrl, shift;
        cbn in Hround; injection Hround; intros; subst; cbn; auto.
    + intros (Hflag & -> & ->).
      movement_cases Hcases; cbn in Hflag; subst;
        destruct ctrl, shift; reflexivity.
Qed.

Lemma press_release_witness :
  handleKeyUp keyW (handleKeyDown keyW standing) = standing.
Proof.
  assert (Hkeys : KEYS (code keyW) = Some "forward"%string) by reflexivity.
  assert (Hsp : code keyW <> "Space"%string) by discriminate.
  destruct (press_release keyW "forward" standing Hkeys Hsp)
    as (_ & _ & Hround).
  apply Hround; [reflexivity|]. repeat split.
Defined.

Lemma setFlag_modifiers (name : string) (v : bool) (m : MoveState) :
  duck (setFlag name v m) = duck m
  /\ slowWalk (setFlag name v m) = slowWalk m.
Proof.
  unfold setFlag.
  repeat match goal with
         | |- context [String.eqb name ?k] => destruct (String.eqb name k)
         end; auto.
Qed.

Lemma upFlags_modifiers (e : KeyboardEvent) (m : MoveState) :
  duck (upFlags e m) = negb (isControl (code e)) && ctrlKey e && duck m
  /\ slowWalk (upFlags e m)
     = negb (isShift (code e)) && shiftKey e && slowWalk m.
Proof.
  unfold upFlags.
  set (m4 := if negb (shiftKey e) then _ else _).
  assert (H4 : duck m4 = negb (isControl (code e)) && ctrlKey e && duck m
               /\ slowWalk m4
                  = negb (isShift (code e)) && shiftKey e && slowWalk m).
  { subst m4. destruct m as [f b le r j d sw].
    destruct (isControl (code e)), (isShift (code e)), (ctrlKey e),
      (shiftKey e), d, sw; split; reflexivity. }
  destruct (KEYS (code e)) as [name|]; [|exact H4].
  destruct (negb (code e =? "Space")%string); [|exact H4].
  destruct (setFlag_modifiers name false m4) as [-> ->]. exact H4.
Qed.

(** X8.  A key-up leaves the duck flag set only when the event carries the
    Ctrl modifier, is not the release of a Control key, and the flag was
    set before; the same holds for the slow-walk flag with Shift. *)
Theorem keyup_clears_modifiers (e : KeyboardEvent) (s : State) :
  (duck (moveState (handleKeyUp e s)) = true ->
   ctrlKey e = true /\ isControl (code e) = false
   /\ duck (moveState s) = true)
  /\ (slowWalk (moveState (handleKeyUp e s)) = true ->
      shiftKey e = true /\ isShift (code e) = false
      /\ slowWalk (moveState s) = true).
Proof.
  rewrite handleKeyUp_flags. unfold withMoveState. cbn [moveState].
  destruct (upFlags_modifiers e (moveState s)) as [-> ->].
  split; intros H; repeat (apply andb_true_iff in H; destruct H as [H ?]);
    apply negb_true_iff in H; auto.
Qed.

Lemma keyup_clears_modifiers_witness :
  ctrlKey (mkKeyboardEvent "KeyW" true false) = true
  /\ isControl (code (mkKeyboardEvent "KeyW" true false)) = false
  /\ duck (moveState ducking) = true.
Proof.
  destruct (keyup_clears_modifiers (mkKeyboardEvent "KeyW" true false)
              ducking) as [Hduck _].
  apply Hduck. reflexivity.
Defined.

Lemma handleKeyDown_jump (e : KeyboardEvent) (s : State) :
  jump (moveState (handleKeyDown e s)) = jump (moveState s).
Proof.
  destruct (isLocked s) eqn:Hl;
    [|now rewrite handleKeyDown_unlocked].
  rewrite handleKeyDown_locked by assumption.
  assert (Hdown : jump (downFlags e (moveState s)) = jump (moveState s)).
  { unfold downFlags, setDuck, setSlowWalk.
    destruct (ctrlKey e || isControl (code e)),
      (shiftKey e || isShift (code e)); reflexivity. }
  destruct (KEYS (code e)) as [name|] eqn:Hkeys;
    [|unfold withMoveState; cbn [moveState]; exact Hdown].
  destruct (String.eqb_spec (code e) "Space") as [Hsp|Hsp].
  - destruct (isGrounded s && Reqb (velocityY s) 0);
      unfold withMoveState; cbn [moveState]; exact Hdown.
  - unfold withMoveState. cbn [moveState]. rewrite <- Hdown.
    pose proof (KEYS_movement _ _ Hkeys Hsp) as Hcases.
    destruct (downFlags e (moveState s)) as [f b le r j d sw].
    destruct Hcases as [[-> _] | [[-> _] | [[-> _] | [-> _]]]]; reflexivity.
Qed.

(** X9.  The jump flag of the MoveState is never set: it is false in every
    state the component can reach. *)
Theorem jump_flag_never_set (bounds : list CollisionBounds)
    (evs : list Event) :
  jump (moveState (run bounds evs)) = false.
Proof.
  apply (run_invariant bounds (fun s => jump (moveState s) = false)
           (fun _ => True)).
  - reflexivity.
  - intros s ev Hs _. destruct ev as [b | e | e | delta applyEuler];
      cbn [step].
    + exact Hs.
    + now rewrite handleKeyDown_jump.
    + destruct (handleKeyUp_clears e s) as (_ & _ & _ & _ & Hj & _).
      destruct (jump (moveState (handleKeyUp e s))); [|reflexivity].
      rewrite <- Hs. symmetry. now apply Hj.
    + unfold useFrame. now destruct (isLocked s).
  - apply Forall_forall. auto.
Qed.

End KeyboardProps.

(* ================================================================== *)
(** * Further properties of the vertical motion *)

Section VerticalProps.

Import Three Player PlayerSpec Props.

Lemma useFrame_apexInv (bounds : list CollisionBounds) (delta : R)
    (applyEuler : Vector3 -> Vector3) (s : State) :
  0 <= delta -> apexInv s -> apexInv (useFrame bounds delta applyEuler s).
Proof.
  intros Hd Hinv.
  destruct (isLocked s) eqn:Hl; [|now rewrite useFrame_unlocked].
  destruct (useFrame_vertical bounds delta applyEuler s Hl)
    as (Hv' & Hg' & Hy').
  unfold apexInv. rewrite Hv', Hg', Hy'.
  unfold groundVelocity, groundHeight, isOnGround.
  destruct Hinv as (Hv & He & Hgr).
  assert (Hiv : integratedVelocity delta s <= JUMP_FORCE).
  { unfold integratedVelocity, GRAVITY, JUMP_FORCE in *. nra. }
  destruct (Rleb (integratedY delta s) GROUND_HEIGHT) eqn:Hground.
  - apply Rleb_true in Hground.
    pose proof (blendHeight_upper (duck (moveState s)) delta _ Hd Hground)
      as Hbu.
    set (h := blendHeight (duck (moveState s)) delta (integratedY delta s))
      in *.
    unfold JUMP_FORCE, GROUND_HEIGHT in *.
    destruct (Rltb (integratedVelocity delta s) 0) eqn:Hneg.
    + repeat split; try lra.
    + apply Rltb_false in Hneg. repeat split; try lra. nra.
  - apply Rleb_false in Hground.
    unfold integratedY, integratedVelocity, GRAVITY, JUMP_FORCE,
      GROUND_HEIGHT in *.
    set (v := velocityY s) in *. set (cy := y (camera_position s)) in *.
    repeat split; try lra; try nra; try discriminate.
Qed.

Lemma step_apexInv (bounds : list CollisionBounds) (s : State) (ev : Event) :
  apexInv s -> frameNonneg ev -> apexInv (step bounds s ev).
Proof.
  intros Hinv Hev. destruct ev as [b | e | e | delta applyEuler]; cbn [step].
  - exact Hinv.
  - unfold apexInv in *.
    destruct (handleKeyDown_frame e s) as (-> & _ & _).
    destruct Hinv as (Hv & He & Hgr).
    destruct (handleKeyDown_vertical e s)
      as [[-> ->] | (_ & _ & Hg & Hv0 & -> & ->)].
    + auto.
    + specialize (Hgr Hg). unfold JUMP_FORCE, GROUND_HEIGHT in *.
      repeat split; try lra; try discriminate.
  - unfold apexInv in *.
    destruct (handleKeyUp_frame e s) as ((-> & -> & ->) & _). exact Hinv.
  - now apply useFrame_apexInv.
Qed.

(** X10.  Whatever the keys, lock changes and non-negative frame times, the
    camera never rises above 3.6, the apex of one jump from standing height
    (GROUND_HEIGHT + JUMP_FORCE^2 / (2 * 20)), and the vertical velocity
    never exceeds JUMP_FORCE: jumps do not stack. *)
Theorem jump_apex_bound (bounds : list CollisionBounds) (evs : list Event) :
  Forall frameNonneg evs ->
  y (camera_position (run bounds evs)) <= 3.6
  /\ velocityY (run bounds evs) <= JUMP_FORCE.
Proof.
  intros Hevs.
  assert (Hinv : apexInv (run bounds evs)).
  { apply (run_invariant bounds apexInv frameNonneg); [| |exact Hevs].
    - unfold apexInv, initialState, JUMP_FORCE, GROUND_HEIGHT. cbn.
      repeat split; lra.
    - intros s ev. apply step_apexInv. }
  destruct Hinv as (Hv & He & _). split; [|exact Hv].
  nra.
Qed.

Lemma jump_apex_bound_witness :
  y (camera_position
       (run staticCollisionBounds
            [SetLocked true; KeyDown spaceKey; Frame (1 / 8) noRotation]))
  <= 3.6.
Proof.
  apply (jump_apex_bound staticCollisionBounds
           [SetLocked true; KeyDown spaceKey; Frame (1 / 8) noRotation]).
  repeat constructor. cbn. lra.
Defined.

(** One tick of a fully ducked player. *)
Lemma ducked_tick (bounds : list CollisionBounds) (delta : R)
    (applyEuler : Vector3 -> Vector3) (s : State) :
  0 <= delta ->
  isLocked s = true ->
  duck (moveState s) = true ->
  y (camera_position s) = DUCK_HEIGHT ->
  velocityY s <= JUMP_FORCE ->
  let s' := useFrame bounds delta applyEuler s in
  isLocked s' = true
  /\ duck (moveState s') = true
  /\ y (camera_position s') = DUCK_HEIGHT
  /\ velocityY s' <= JUMP_FORCE
  /\ isGrounded s' = true.
Proof.
  intros Hd Hl Hduck Hy Hv s'. subst s'.
  destruct (useFrame_vertical bounds delta applyEuler s Hl)
    as (Hv' & Hg' & Hy').
  rewrite Hv', Hg', Hy'.
  rewrite useFrame_locked by assumption. cbn [isLocked moveState].
  unfold groundVelocity, groundHeight, isOnGround.
  assert (Hint : integratedY delta s <= GROUND_HEIGHT).
  { unfold integratedY, integratedVelocity, GRAVITY, GROUND_HEIGHT,
      JUMP_FORCE, DUCK_HEIGHT in *.
    rewrite Hy.
    pose proof (Rle_0_sqr (delta - 1 / 5)) as Hsq. unfold Rsqr in Hsq.
    assert (Hvd : 0 <= (8 - velocityY s) * delta)
      by (apply Rmult_le_pos; lra).
    lra. }
  rewrite (proj2 (Rleb_true _ _) Hint), Hduck.
  repeat split; try assumption.
  - unfold blendHeight, Rgtb.
    destruct (Rltb DUCK_HEIGHT (integratedY delta s)) eqn:Hab;
      [|reflexivity].
    apply Rmax_left.
    unfold integratedY, integratedVelocity, GRAVITY, JUMP_FORCE,
      DUCK_HEIGHT in *.
    rewrite Hy. nra.
  - unfold integratedVelocity, GRAVITY, JUMP_FORCE in *.
    destruct (Rltb _ 0); nra.
Qed.

(** X11.  A jump requested while fully ducked never lifts off: from a
    locked, grounded state at rest at DUCK_HEIGHT with duck held, the Space
    key-down sets the velocity to JUMP_FORCE, and after any number of
    frames with non-negative times the camera is still at DUCK_HEIGHT and
    the player grounded. *)
Theorem ducked_jump_stays_down (bounds : list CollisionBounds)
    (e : KeyboardEvent) (fs : list (R * (Vector3 -> Vector3))) (s : State) :
  code e = "Space"%string ->
  isLocked s = true ->
  duck (moveState s) = true ->
  isGrounded s = true ->
  velocityY s = 0 ->
  y (camera_position s) = DUCK_HEIGHT ->
  Forall (fun f => 0 <= fst f) fs ->
  velocityY (handleKeyDown e s) = JUMP_FORCE
  /\ y (camera_position (frames bounds fs (handleKeyDown e s))) = DUCK_HEIGHT
  /\ (fs <> [] -> isGrounded (frames bounds fs (handleKeyDown e s)) = true).
Proof.
  intros Hcode Hl Hduck Hg Hv Hy Hfs.
  assert (Hdown : handleKeyDown e s
                  = mkState true (spaceFlags e (moveState s)) JUMP_FORCE false
                            (camera_position s) (scene_fog s)).
  { rewrite handleKeyDown_space by assumption.
    now rewrite Hg, (proj2 (Reqb_true _ _) Hv). }
  split; [now rewrite Hdown|].
  set (s1 := handleKeyDown e s).
  assert (H1 : isLocked s1 = true /\ duck (moveState s1) = true
               /\ y (camera_position s1) = DUCK_HEIGHT
               /\ velocityY s1 <= JUMP_FORCE).
  { subst s1. rewrite Hdown. cbn. repeat split; try assumption; try lra.
    unfold spaceFlags, setDuck, setSlowWalk.
    destruct (ctrlKey e), (shiftKey e); cbn; auto. }
  clearbody s1. clear Hdown.
  assert (Hgen : forall fs0 s0,
             Forall (fun f => 0 <= fst f) fs0 ->
             isLocked s0 = true /\ duck (moveState s0) = true
             /\ y (camera_position s0) = DUCK_HEIGHT
             /\ velocityY s0 <= JUMP_FORCE ->
             y (camera_position (frames bounds fs0 s0)) = DUCK_HEIGHT
             /\ (fs0 <> [] -> isGrounded (frames bounds fs0 s0) = true)).
  { induction fs0 as [|f fs0 IH]; intros s0 Hall (Hl0 & Hd0 & Hy0 & Hv0).
    - cbn. split; [assumption | congruence].
    - inversion Hall as [|? ? Hf Hrest]; subst.
      destruct (ducked_tick bounds (fst f) (snd f) s0 Hf Hl0 Hd0 Hy0 Hv0)
        as (Hl' & Hd' & Hy' & Hv' & Hg').
      unfold frames. cbn [fold_left]. fold (frames bounds fs0).
      destruct (IH _ Hrest (conj Hl' (conj Hd' (conj Hy' Hv'))))
        as [IHy IHg].
      split; [exact IHy|]. intros _.
      destruct fs0 as [|f' fs0']; [exact Hg'|].
      apply IHg. discriminate. }
  now apply Hgen.
Qed.

Lemma ducked_jump_stays_down_witness :
  y (camera_position
       (frames staticCollisionBounds
               [(1 / 8, noRotation); (1 / 8, noRotation)]
               (handleKeyDown spaceKey
                  (mkState true
                     (mkMoveState false false false false false true false)
                     0 true (vec3 0 1 10) (Some (mkFog 5 30))))))
  = DUCK_HEIGHT.
Proof.
  apply (ducked_jump_stays_down staticCollisionBounds spaceKey
           [(1 / 8, noRotation); (1 / 8, noRotation)]
           (mkState true
              (mkMoveState false false false false false true false)
              0 true (vec3 0 1 10) (Some (mkFog 5 30))));
    try reflexivity.
  repeat constructor; cbn; lra.
Defined.

(** X12.  A player at rest stays at rest: standing at GROUND_HEIGHT with
    zero velocity and duck not held, a tick of at most 0.75 seconds leaves
    height, velocity and grounded flag as they are; ducked at DUCK_HEIGHT
    with duck held, so does every tick of non-negative length. *)
Theorem rest_is_stable (bounds : list CollisionBounds) (delta : R)
    (applyEuler : Vector3 -> Vector3) (s : State) :
  isLocked s = true ->
  velocityY s = 0 ->
  0 <= delta ->
  let s' := useFrame bounds delta applyEuler s in
  (duck (moveState s) = false -> y (camera_position s) = GROUND_HEIGHT ->
   delta <= 0.75 ->
   y (camera_position s') = GROUND_HEIGHT /\ velocityY s' = 0
   /\ isGrounded s' = true)
  /\ (duck (moveState s) = true -> y (camera_position s) = DUCK_HEIGHT ->
      y (camera_position s') = DUCK_HEIGHT /\ velocityY s' = 0
      /\ isGrounded s' = true).
Proof.
  intros Hl Hv Hd s'. subst s'.
  destruct (useFrame_vertical bounds delta applyEuler s Hl)
    as (Hv' & Hg' & Hy').
  rewrite Hv', Hg', Hy'.
  unfold groundVelocity, groundHeight, isOnGround, integratedY,
    integratedVelocity, GRAVITY, GROUND_HEIGHT, DUCK_HEIGHT.
  rewrite Hv.
  split.
  - intros Hduck Hy Hmax. rewrite Hduck, Hy.
    assert (Hground : Rleb (2 + (0 + -20 * delta) * delta) 2 = true)
      by (apply Rleb_true; nra).
    rewrite Hground.
    unfold blendHeight, GROUND_HEIGHT, Rmin.
    repeat split.
    + destruct (Rltb _ 2); [|reflexivity].
      destruct (Rle_dec _ _); [reflexivity | nra].
    + destruct (Rltb _ 0) eqn:E; [reflexivity|].
      apply Rltb_false in E. nra.
  - intros Hduck Hy. rewrite Hduck, Hy.
    assert (Hground : Rleb (1 + (0 + -20 * delta) * delta) 2 = true)
      by (apply Rleb_true; nra).
    rewrite Hground.
    unfold blendHeight, DUCK_HEIGHT, Rgtb, Rmax.
    repeat split.
    + destruct (Rltb 1 _) eqn:E; [|reflexivity].
      apply Rltb_true in E. nra.
    + destruct (Rltb _ 0) eqn:E; [reflexivity|].
      apply Rltb_false in E. nra.
Qed.

Lemma rest_is_stable_witness :
  y (camera_position (useFrame staticCollisionBounds (1 / 8) noRotation
                               standing))
  = GROUND_HEIGHT
  /\ velocityY (useFrame staticCollisionBounds (1 / 8) noRotation standing)
     = 0
  /\ isGrounded (useFrame staticCollisionBounds (1 / 8) noRotation standing)
     = true.
Proof.
  assert (Hl : isLocked standing = true) by reflexivity.
  assert (Hv : velocityY standing = 0) by reflexivity.
  assert (Hd : 0 <= 1 / 8) by lra.
  destruct (rest_is_stable staticCollisionBounds (1 / 8) noRotation standing
              Hl Hv Hd) as [Hstand _].
  apply Hstand; [reflexivity | reflexivity | lra].
Defined.

(** X13.  With duck held, every active tick of non-negative length that
    ends Grounded leaves the camera within [DUCK_HEIGHT, GROUND_HEIGHT],
    whatever the state before and however long the frame. *)
Theorem ducking_height_range (bounds : list CollisionBounds) (delta : R)
    (applyEuler : Vector3 -> Vector3) (s : State) :
  isLocked s = true ->
  0 <= delta ->
  duck (moveState s) = true ->
  let s' := useFrame bounds delta applyEuler s in
  isGrounded s' = true ->
  DUCK_HEIGHT <= y (camera_position s') <= GROUND_HEIGHT.
Proof.
  intros Hl Hd Hduck s'. subst s'.
  destruct (useFrame_vertical bounds delta applyEuler s Hl)
    as (_ & Hg' & Hy').
  rewrite Hg', Hy'. unfold groundHeight, isOnGround.
  destruct (Rleb (integratedY delta s) GROUND_HEIGHT) eqn:Hground;
    [|discriminate].
  intros _. apply Rleb_true in Hground. rewrite Hduck. split.
  - apply blendHeight_duck_lower.
  - now apply blendHeight_upper.
Qed.

Lemma ducking_height_range_witness :
  DUCK_HEIGHT
  <= y (camera_position (useFrame staticCollisionBounds 1 noRotation ducking))
  <= GROUND_HEIGHT.
Proof.
  apply (ducking_height_range staticCollisionBounds 1 noRotation ducking);
    try reflexivity; try lra.
  assert (Hl : isLocked ducking = true) by reflexivity.
  destruct (useFrame_vertical staticCollisionBounds 1 noRotation ducking Hl)
    as (_ & -> & _).
  unfold isOnGround, integratedY, integratedVelocity, GRAVITY, GROUND_HEIGHT,
    ducking.
  cbn [velocityY camera_position y]. apply Rleb_true. lra.
Defined.

End VerticalProps.

(* ================================================================== *)
(** * Further properties of the horizontal movement and the fog *)

Section HorizontalProps.

Import Three Player PlayerSpec Props.

Lemma fogIntensity_within_wall (d : R) :
  d <= WALL_RADIUS -> 0 <= fogIntensity d <= 2 / 3.
Proof.
  unfold fogIntensity, WALL_RADIUS, FOG_START_DISTANCE, FOG_MAX_DISTANCE.
  intros Hd. replace (100 - 25) with 75 by lra.
  unfold Rmax, Rmin. repeat destruct (Rle_dec _ _); lra.
Qed.

Lemma step_fogInv (bounds : list CollisionBounds) (s : State) (ev : Event) :
  fogInv s -> fogInv (step bounds s ev).
Proof.
  intros [Hwall (fog & Hfog & Hnear & Hfar)].
  split; [now apply step_within_wall|].
  destruct ev as [b | e | e | delta applyEuler]; cbn [step].
  - exists fog. auto.
  - destruct (handleKeyDown_frame e s) as (_ & _ & ->). exists fog. auto.
  - destruct (handleKeyUp_frame e s) as (_ & _ & ->). exists fog. auto.
  - destruct (isLocked s) eqn:Hl.
    + rewrite useFrame_locked by assumption. cbn [scene_fog].
      rewrite Hfog. unfold updateFog. rewrite distanceTo_center.
      pose proof (horizontalMove_within_wall bounds
                    (newX delta applyEuler s) (newZ delta applyEuler s) s
                    Hwall) as Hd.
      cbv zeta in Hd.
      pose proof (fogIntensity_within_wall _ Hd) as Hi.
      eexists. split; [reflexivity|]. cbn [near far]. lra.
    + rewrite useFrame_unlocked by assumption. exists fog. auto.
Qed.

(** X14.  In every state the component can reach the fog has near in
    [5, 15] and far in [30, 170/3]: the wall at radius 75 keeps the fog
    intensity at or below 2/3, so the densest setting (near 20, far 70) is
    never produced. *)
Theorem fog_range (bounds : list CollisionBounds) (evs : list Event) :
  exists fog : Fog,
    scene_fog (run bounds evs) = Some fog
    /\ 5 <= near fog <= 15 /\ 30 <= far fog <= 170 / 3.
Proof.
  assert (Hinv : fogInv (run bounds evs)).
  { apply (run_invariant bounds fogInv (fun _ => True)).
    - split.
      + unfold planarDistance, initialState, WALL_RADIUS.
        cbn [camera_position x z]. apply sqrt_le_bound; lra.
      + exists (mkFog 5 30). cbn. repeat split; lra.
    - intros s ev Hs _. now apply step_fogInv.
    - apply Forall_forall. auto. }
  exact (proj2 Hinv).
Qed.

(** ** Step length *)

Lemma length_multiplyScalar (v : Vector3) (k : R) :
  0 <= k -> length (multiplyScalar v k) = k * length v.
Proof.
  intros Hk. unfold length, multiplyScalar. cbn [x y z].
  replace (x v * k * (x v * k) + y v * k * (y v * k) + z v * k * (z v * k))
    with (k * k * (x v * x v + y v * y v + z v * z v)) by ring.
  rewrite sqrt_mult by nra. now rewrite sqrt_square.
Qed.

Lemma length_normalize (v : Vector3) :
  0 < length v -> length (normalize v) = 1.
Proof.
  intros Hpos. unfold normalize, divideScalar.
  rewrite (proj2 (Reqb_false (length v) 0)) by lra.
  rewrite length_multiplyScalar.
  - field. lra.
  - apply Rlt_le. unfold Rdiv. rewrite Rmult_1_l.
    now apply Rinv_0_lt_compat.
Qed.

Lemma Number_cases (b : bool) : Number b = 0 \/ Number b = 1.
Proof. destruct b; cbn; auto. Qed.

(** X15.  Without view rotation, a tick of non-negative length moves the
    candidate by exactly speed * delta (speed 3 with slow walk, 10
    otherwise) whenever the pressed direction keys do not cancel, diagonals
    included, and by nothing when they cancel. *)
Theorem step_length (delta : R) (s : State) :
  0 <= delta ->
  (~ noNetInput (moveState s) ->
   length (direction delta noRotation s) = speedOf s * delta)
  /\ (noNetInput (moveState s) ->
      direction delta noRotation s = vec3 0 0 0).
Proof.
  intros Hd. unfold direction, noRotation, noNetInput, speedOf.
  destruct (moveState s) as [f b l r j d sw].
  cbn [forward backward left right slowWalk].
  set (speed := if sw then SLOW_WALK_SPEED else SPEED).
  assert (Hspeed : 0 <= speed)
    by (subst speed; unfold SLOW_WALK_SPEED, SPEED; destruct sw; lra).
  split.
  - intros Hnet.
    rewrite length_multiplyScalar by (apply Rmult_le_pos; assumption).
    rewrite length_normalize; [lra|].
    unfold length, subVectors. cbn [x y z].
    apply sqrt_lt_R0.
    destruct f, b, l, r; cbn [Number];
      try (exfalso; apply Hnet; split; reflexivity); lra.
  - intros [-> ->].
    unfold normalize, divideScalar, multiplyScalar, subVectors.
    cbn [x y z]. f_equal; ring.
Qed.

Lemma step_length_witness :
  length (direction (1 / 8) noRotation walking) = speedOf walking * (1 / 8).
Proof.
  assert (Hd : 0 <= 1 / 8) by lra.
  destruct (step_length (1 / 8) walking Hd) as [Hmove _].
  apply Hmove. unfold noNetInput, walking. cbn. intros [H _]. discriminate.
Defined.

(** X16.  With no net direction input (opposite keys equal) and a view
    rotation that maps the zero vector to itself, an active tick leaves the
    camera's x and z unchanged, from any position within the wall: the
    player does not drift, and is not pushed by the wall or by an obstacle
    it overlaps. *)
Theorem no_input_no_move (bounds : list CollisionBounds) (delta : R)
    (applyEuler : Vector3 -> Vector3) (s : State) :
  applyEuler (vec3 0 0 0) = vec3 0 0 0 ->
  noNetInput (moveState s) ->
  isLocked s = true ->
  planarDistance s <= WALL_RADIUS ->
  let s' := useFrame bounds delta applyEuler s in
  x (camera_position s') = x (camera_position s)
  /\ z (camera_position s') = z (camera_position s).
Proof.
  intros Hzero Hnet Hl Hwall s'.
  destruct (useFrame_horizontal bounds delta applyEuler s Hl) as [Hxz _].
  fold s' in Hxz.
  assert (Hdir : direction delta applyEuler s = vec3 0 0 0).
  { unfold direction.
    transitivity (applyEuler (vec3 0 0 0)); [|exact Hzero]. f_equal.
    destruct Hnet as [Hf Hs]. rewrite Hf, Hs.
    unfold normalize, divideScalar, multiplyScalar, subVectors.
    cbn [x y z]. f_equal; ring. }
  unfold newX, newZ in Hxz. rewrite Hdir in Hxz. cbn [x z] in Hxz.
  rewrite !Rplus_0_r in Hxz.
  set (cx := x (camera_position s)) in *.
  set (cz := z (camera_position s)) in *.
  assert (Hres : horizontalMove bounds cx cz s = (cx, cz)).
  { destruct (Rle_dec WALL_RADIUS (distanceFromCenter cx cz)) as [Hw|Hw].
    - rewrite horizontalMove_wall by assumption.
      assert (Hd : distanceFromCenter cx cz = WALL_RADIUS).
      { unfold planarDistance in Hwall. fold cx cz in Hwall.
        unfold distanceFromCenter in *. lra. }
      assert (Hpos : 0 < sqrt (cx * cx + cz * cz)).
      { unfold distanceFromCenter, WALL_RADIUS in Hd. lra. }
      destruct (atan2_direction cz cx Hpos) as [-> ->].
      unfold distanceFromCenter in Hd. rewrite Hd.
      unfold WALL_RADIUS. f_equal; field.
    - apply Rnot_le_lt in Hw. rewrite horizontalMove_inside by assumption.
      now destruct (checkCollision _ _ _). }
  rewrite Hres in Hxz. injection Hxz as Hx Hz. auto.
Qed.

Lemma no_input_no_move_witness :
  x (camera_position (useFrame staticCollisionBounds (1 / 8) noRotation
                               standing))
  = x (camera_position standing)
  /\ z (camera_position (useFrame staticCollisionBounds (1 / 8) noRotation
                                 standing))
     = z (camera_position standing).
Proof.
  apply (no_input_no_move staticCollisionBounds (1 / 8) noRotation standing).
  - reflexivity.
  - split; reflexivity.
  - reflexivity.
  - unfold planarDistance, standing, WALL_RADIUS. cbn [camera_position x z].
    apply sqrt_le_bound; lra.
Defined.

End HorizontalProps.

(* ================================================================== *)
(** * Further properties of the scatter generator *)

Section ScatterProps.

Import ScatterData Props.

Lemma specY_range (i : nat) : 0 <= specY i < 5.
Proof.
  unfold specY. pose proof (specDraw_range (7 * i + 3)). lra.
Qed.

Lemma specSize_range (i : nat) : 1 <= specSize i < 4.
Proof.
  unfold specSize. pose proof (specDraw_range (7 * i + 5)). lra.
Qed.

(** X17.  For parameters with [0 <= startRadius] and
    [startRadius + 5 < wallRadius], every generated object lies in the ring
    between startRadius and wallRadius - 5 around the origin, at a height in
    [0, 5), with a size in [1, 4), a rotation in [0, 2 pi), a type among
    0..3 and a colour index among 0..5. *)
Theorem generated_objects_in_ring (count : Z) (startRadius wallRadius : R) :
  0 <= startRadius ->
  startRadius + 5 < wallRadius ->
  Forall (fun o =>
            startRadius <= objectDistance o < wallRadius - 5
            /\ 0 <= objectY o < 5
            /\ 1 <= size o < 4
            /\ 0 <= rotation o < 2 * PI
            /\ (0 <= type o <= 3)%Z
            /\ (0 <= colorIndex o <= 5)%Z)
         (generateScatteredObjects count startRadius wallRadius).
Proof.
  intros Hs Hgap. rewrite generate_eq_spec. unfold specGenerate.
  apply Forall_forall. intros o Hin.
  apply in_map_iff in Hin. destruct Hin as [i [<- _]].
  pose proof (specDistance_range startRadius wallRadius i Hgap) as Hd.
  unfold specObject, objectDistance, objectY.
  cbn [position size rotation type colorIndex].
  rewrite on_circle by lra.
  split; [exact Hd|].
  split; [apply specY_range|].
  split; [apply specSize_range|].
  split; [apply specRotation_range|].
  split; [apply specType_range | apply specColorIndex_range].
Qed.

Lemma generated_objects_in_ring_witness :
  Forall (fun o =>
            5 <= objectDistance o < 75 - 5
            /\ 0 <= objectY o < 5
            /\ 1 <= size o < 4
            /\ 0 <= rotation o < 2 * PI
            /\ (0 <= type o <= 3)%Z
            /\ (0 <= colorIndex o <= 5)%Z)
         (generateScatteredObjects 60 5 75).
Proof.
  apply (generated_objects_in_ring 60 5 75); lra.
Defined.

(** ** Keys *)

Lemma to_int_not_nil (n : Z) :
  Z.to_int n <> Decimal.Pos Decimal.Nil
  /\ Z.to_int n <> Decimal.Neg Decimal.Nil.
Proof.
  destruct n as [|p|p]; cbn; split; try discriminate;
    intros H; injection H as H;
    exact (Unsigned.to_uint_nonnil p H).
Qed.

Lemma objKey_inj (i j : Z) : objKey i = objKey j -> i = j.
Proof.
  unfold objKey. cbn [String.append]. intros H.
  injection H as H.
  apply to_int_inj.
  destruct (to_int_not_nil i) as [Hi1 Hi2].
  destruct (to_int_not_nil j) as [Hj1 Hj2].
  pose proof (NilZero.isi _ Hi1 Hi2) as Ei.
  pose proof (NilZero.isi _ Hj1 Hj2) as Ej.
  rewrite H in Ei. rewrite Ei in Ej. now injection Ej.
Qed.

Lemma generate_keys (count : Z) (startRadius wallRadius : R) :
  map key (generateScatteredObjects count startRadius wallRadius)
  = map (fun i => objKey (Z.of_nat i)) (seq 0 (Z.to_nat count)).
Proof.
  rewrite generate_eq_spec. unfold specGenerate. rewrite map_map.
  reflexivity.
Qed.

(** X18.  The keys of the generated objects are pairwise distinct, and the
    object at index [i] has the key [obj-i]. *)
Theorem generated_keys_distinct (count : Z) (startRadius wallRadius : R) :
  NoDup (map key (generateScatteredObjects count startRadius wallRadius))
  /\ forall i : nat,
       (i < Z.to_nat count)%nat ->
       nth_error
         (map key (generateScatteredObjects count startRadius wallRadius)) i
       = Some (objKey (Z.of_nat i)).
Proof.
  rewrite generate_keys. split.
  - apply Finite.Injective_map_NoDup; [|apply seq_NoDup].
    intros i j H. apply objKey_inj in H. lia.
  - intros i Hi.
    rewrite nth_error_map, nth_error_seq.
    destruct (Nat.ltb_spec i (Z.to_nat count)); [reflexivity | lia].
Qed.

Lemma generated_keys_distinct_witness :
  nth_error (map key (generateScatteredObjects 60 5 75)) 59
  = Some (objKey 59).
Proof.
  destruct (generated_keys_distinct 60 5 75) as [_ Hnth].
  apply (Hnth 59%nat). cbn. lia.
Defined.

(** ** The state update is a bijection *)

(** X19.  On [0, 2^32) the state update of the generator is a bijection
    with inverse [state -> 4276115653 * (state - 1013904223) mod 2^32]:
    distinct states have distinct successors, and every state has a
    predecessor. *)
Theorem rngStep_bijective (state : Z) :
  (0 <= state < 4294967296)%Z ->
  rngUnstep (rngStep state) = state
  /\ rngStep (rngUnstep state) = state
  /\ (forall other : Z,
        (0 <= other < 4294967296)%Z ->
        rngStep other = rngStep state -> other = state).
Proof.
  intros Hrange.
  assert (Hleft : forall s, (0 <= s < 4294967296)%Z ->
                            rngUnstep (rngStep s) = s).
  { intros s Hs. unfold rngUnstep, rngStep.
    set (q := ((1664525 * s + 1013904223) / 4294967296)%Z).
    rewrite (Z.mod_eq (1664525 * s + 1013904223) 4294967296) by lia.
    fold q.
    replace (4276115653
             * (1664525 * s + 1013904223 - 4294967296 * q - 1013904223))%Z
      with (s + (1657219 * s - 4276115653 * q) * 4294967296)%Z by ring.
    rewrite Z_mod_plus_full. now apply Z.mod_small. }
  split; [now apply Hleft|]. split.
  - unfold rngUnstep, rngStep.
    set (q := ((4276115653 * (state - 1013904223)) / 4294967296)%Z).
    rewrite (Z.mod_eq (4276115653 * (state - 1013904223)) 4294967296)
      by lia.
    fold q.
    replace (1664525
             * (4276115653 * (state - 1013904223) - 4294967296 * q)
             + 1013904223)%Z
      with (state + (1657219 * state - 1664525 * q - 1680261342535837)
                    * 4294967296)%Z by ring.
    rewrite Z_mod_plus_full. now apply Z.mod_small.
  - intros other Hother Heq.
    rewrite <- (Hleft other Hother), Heq. now apply Hleft.
Qed.

Lemma rngStep_bijective_witness :
  rngUnstep (rngStep 12345) = 12345%Z.
Proof.
  destruct (rngStep_bijective 12345) as [Hleft _]; [lia | exact Hleft].
Defined.

End ScatterProps.

(* ================================================================== *)
(** * The collision index and the rendered objects *)

Section RoomProps.

Import Three Player PlayerSpec Props.

Lemma validTypeb_spec (o : ScatterData.ScatteredObject) :
  validTypeb o = true <-> validType o.
Proof. unfold validTypeb, validType. lia. Qed.

Lemma flat_map_filter (objs : list ScatterData.ScatteredObject) :
  flat_map (fun o => pushScattered o []) objs
  = map scatterShape (filter validTypeb objs).
Proof.
  induction objs as [|o objs IH]; cbn [flat_map filter map]; [reflexivity|].
  destruct (validTypeb o) eqn:Hv.
  - apply validTypeb_spec in Hv. rewrite pushScattered_valid by assumption.
    cbn [map app]. now rewrite IH.
  - rewrite pushScattered_invalid.
    + cbn [app]. exact IH.
    + intros Hvalid. apply validTypeb_spec in Hvalid. congruence.
Qed.

(** X20.  For any list of scattered objects the index is the 18 column
    shapes, the 4 statue shapes and, in order, the shapes of the objects
    whose type is among 0..3; objects of another type are skipped, so the
    length is 22 plus the number of objects of type 0..3. *)
Theorem collision_index_general (objs : list ScatterData.ScatteredObject) :
  generateCollisionBounds objs
  = flat_map columnShapes columnPositions ++ statueShapes
    ++ map scatterShape (filter validTypeb objs)
  /\ List.length (generateCollisionBounds objs)
     = (22 + List.length (filter validTypeb objs))%nat
  /\ (List.length (generateCollisionBounds objs)
      <= 22 + List.length objs)%nat.
Proof.
  assert (Heq : generateCollisionBounds objs
                = flat_map columnShapes columnPositions ++ statueShapes
                  ++ map scatterShape (filter validTypeb objs)).
  { rewrite generateCollisionBounds_shape. now rewrite flat_map_filter. }
  assert (Hlen : List.length (generateCollisionBounds objs)
                 = (22 + List.length (filter validTypeb objs))%nat).
  { rewrite Heq, !length_app, length_map. reflexivity. }
  split; [exact Heq|]. split; [exact Hlen|].
  rewrite Hlen. pose proof (filter_length_le validTypeb objs). lia.
Qed.



Lemma colorAt_palette (c : Z) :
  (0 <= c <= 5)%Z ->
  exists col : string, Room.colorAt c = Some col /\ In col Room.colors.
Proof.
  intros Hc.
  assert (Hcases : c = 0%Z \/ c = 1%Z \/ c = 2%Z \/ c = 3%Z \/ c = 4%Z
                   \/ c = 5%Z) by lia.
  destruct Hcases as [-> | [-> | [-> | [-> | [-> | ->]]]]];
    eexists; (split; [reflexivity|]); cbn; tauto.
Qed.

(** X22.  Every object the generator returns is rendered as exactly one
    mesh whose colour is one of the six palette colours (the colour lookup
    is never undefined), under its own key. *)
Theorem generated_objects_rendered (count : Z) (startRadius wallRadius : R) :
  let objs :=
    ScatterData.generateScatteredObjects count startRadius wallRadius in
  map fst (Room.ScatteredObjects objs) = map ScatterData.key objs
  /\ Forall (fun kg =>
               exists (m : Room.Mesh) (col : string),
                 Room.children (snd kg) = [m]
                 /\ Room.color m = Some col /\ In col Room.colors)
            (Room.ScatteredObjects objs).
Proof.
  intros objs. split.
  - unfold Room.ScatteredObjects. rewrite map_map. reflexivity.
  - unfold Room.ScatteredObjects. apply Forall_forall. intros kg Hin.
    apply in_map_iff in Hin. destruct Hin as [o [<- Ho]].
    subst objs. rewrite generate_eq_spec in Ho.
    unfold ScatterData.specGenerate in Ho.
    apply in_map_iff in Ho. destruct Ho as [i [<- _]].
    cbn [snd]. unfold ScatterData.specObject.
    cbn [ScatterData.position ScatterData.type ScatterData.size
         ScatterData.rotation ScatterData.colorIndex].
    destruct (colorAt_palette _ (specColorIndex_range i))
      as [col [Hcol Hin]].
    pose proof (specType_range i) as Hty.
    unfold Room.RandomObject. cbn [Room.children]. rewrite Hcol.
    assert (Hcases : ScatterData.specType i = 0%Z
                     \/ ScatterData.specType i = 1%Z
                     \/ ScatterData.specType i = 2%Z
                     \/ ScatterData.specType i = 3%Z) by lia.
    destruct Hcases as [-> | [-> | [-> | ->]]];
      cbn [Room.renderIf Z.eqb Pos.eqb app];
      eexists; exists col; (split; [reflexivity|]); cbn [Room.color]; auto.
Qed.

End RoomProps.

(* ================================================================== *)
(** * The start overlay *)

Section OverlayProps.

Import Overlay.

Lemma windowKeyDown_locked (s : State) (key : string) :
  isLocked (windowKeyDown s key) = isLocked s.
Proof.
  unfold windowKeyDown, handleKeyDown.
  destruct (isLocked s) eqn:Hl; [exact Hl|].
  destruct ((key =? "Enter")%string && negb (hasStarted s));
    cbn [isLocked]; auto.
Qed.

(** X23.  However many keys are pressed while the [isLocked] prop does not
    change, [onStart] is called at most once: exactly once when the overlay
    is shown, no start is pending and Enter is among the keys, and not at
    all otherwise; in particular never while the pointer is locked, and
    never again after a start that did not lock the pointer. *)
Theorem enter_starts_once (keys : list string) (s : State) :
  onStartCalls (fold_left windowKeyDown keys s)
  = (onStartCalls s
     + (if negb (isLocked s) && negb (hasStarted s) && existsb isEnter keys
        then 1 else 0))%nat.
Proof.
  revert s. induction keys as [|key keys IH]; intros s.
  - cbn. rewrite andb_false_r. lia.
  - cbn [fold_left existsb]. rewrite IH.
    rewrite windowKeyDown_locked.
    unfold windowKeyDown.
    destruct (isLocked s); cbn [negb andb]; [lia|].
    unfold handleKeyDown. change (key =? "Enter")%string with (isEnter key).
    destruct (isEnter key), (hasStarted s) eqn:Hh, (existsb isEnter keys);
      cbn [negb andb orb hasStarted onStartCalls]; rewrite ?Hh;
      cbn [negb andb]; lia.
Qed.

(** X24.  Showing the overlay again re-arms the Enter key: when the prop
    changes from locked to unlocked the pending-start mark is cleared and
    the next Enter calls [onStart] once more, while a render with an
    unchanged prop changes nothing. *)
Theorem overlay_rearms (s : State) :
  setLocked (isLocked s) s = s
  /\ (isLocked s = true ->
      hasStarted (setLocked false s) = false
      /\ onStartCalls (windowKeyDown (setLocked false s) "Enter")
         = S (onStartCalls s)).
Proof.
  split.
  - unfold setLocked. now rewrite Bool.eqb_reflx.
  - intros Hl. unfold setLocked, windowKeyDown, handleKeyDown.
    rewrite Hl. cbn. auto.
Qed.

Lemma overlay_rearms_witness :
  hasStarted (setLocked false (mkState true true 1)) = false
  /\ onStartCalls (windowKeyDown (setLocked false (mkState true true 1))
                                 "Enter")
     = 2%nat.
Proof.
  destruct (overlay_rearms (mkState true true 1)) as [_ Hrearm].
  apply Hrearm. reflexivity.
Defined.

End OverlayProps.
